(** * gpkit: variable-key identity and the NomialData aggregate

    A shallow embedding of [gpkit/varkey.py] and [gpkit/nomials/data.py].
    Python objects become records, [dict]s used as attribute bags become
    [gmap]s, [dict]s whose enumeration order is observable become association
    lists, exceptions become the [Raise] branch of a result type and the
    memoised attributes of [NomialData] become [option] fields that are
    threaded through every operation touching them. *)

From Stdlib Require Import ZArith String Ascii List Permutation.
From Stdlib Require Import DecimalString DecimalZ.
From stdpp Require Import base option gmap strings list.

Set Warnings "-register-all".
#[local] Open Scope Z_scope.
#[local] Open Scope string_scope.
#[local] Open Scope list_scope.

(** ** Python-level conventions *)

Module Py.

(** The exceptions the modelled code can let escape. *)
Inductive Exc : Type :=
| TypeError
| IndexError
| RecursionError
| UnitError
| ValueError (msg : string).

Inductive Result (A : Type) : Type :=
| Ok (a : A)
| Raise (e : Exc).
#[global] Arguments Ok {A} a.
#[global] Arguments Raise {A} e.

Definition bind {A B : Type} (r : Result A) (k : A -> Result B) : Result B :=
  match r with
  | Ok a => k a
  | Raise e => Raise e
  end.

Definition raises {A : Type} (r : Result A) : bool :=
  match r with
  | Ok _ => false
  | Raise _ => true
  end.

(** [str(n)] and ["%s" % n] for an integer. *)
Definition str_int (n : Z) : string := NilEmpty.string_of_int (Z.to_int n).

(** [", ".join(l)]. *)
Fixpoint join (sep : string) (l : list string) : string :=
  match l with
  | [] => EmptyString
  | [s] => s
  | s :: rest => s +:+ sep +:+ join sep rest
  end.

(** [sys.maxint] of the 64-bit interpreter. *)
Definition maxint : Z := 9223372036854775807.

(** [repr(n)] for an integer: one outside the machine range is a [long], which
    [repr] writes with a trailing [L] ([str] does not). *)
Definition repr_int (n : Z) : string :=
  if (- maxint - 1 <=? n)%Z && (n <=? maxint)%Z then str_int n
  else str_int n +:+ "L".

(** [str(t)] for a tuple of integers, which renders each element with
    [repr]: [()], [(0,)], [(0, 1)]. *)
Definition str_int_tuple (t : list Z) : string :=
  match t with
  | [n] => "(" +:+ repr_int n +:+ ",)"
  | _ => "(" +:+ join ", " (map repr_int t) +:+ ")"
  end.

(** [needle in hay] for two strings. *)
Fixpoint contains (needle hay : string) : bool :=
  if String.prefix needle hay then true
  else match hay with
       | EmptyString => false
       | String _ rest => contains needle rest
       end.

(** A [dict] whose enumeration order is observable: the entries in
    insertion order.  Lookup compares keys with the key type's [==]. *)
Section Dict.
Context {K V : Type} (keq : K -> K -> bool) (veq : V -> V -> bool).

(** [d.get(k)] *)
Fixpoint dict_get (k : K) (d : list (K * V)) : option V :=
  match d with
  | [] => None
  | (k', v) :: rest => if keq k' k then Some v else dict_get k rest
  end.

(** [k in d] *)
Definition dict_has (k : K) (d : list (K * V)) : bool :=
  match dict_get k d with
  | Some _ => true
  | None => false
  end.

(** [d[k] = v] *)
Fixpoint dict_set (k : K) (v : V) (d : list (K * V)) : list (K * V) :=
  match d with
  | [] => [(k, v)]
  | (k', v') :: rest =>
      if keq k' k then (k', v) :: rest else (k', v') :: dict_set k v rest
  end.

(** No key is stored twice: what every [dict] satisfies. *)
Fixpoint dict_wf (d : list (K * V)) : bool :=
  match d with
  | [] => true
  | (k, _) :: rest => negb (dict_has k rest) && dict_wf rest
  end.

(** [a == b] for two dicts: equal sizes, and every entry of [a] is found in
    [b] with an equal value. *)
Definition dict_eq (a b : list (K * V)) : bool :=
  (length a =? length b)%nat
  && forallb (fun '(k, v) =>
                match dict_get k b with
                | Some v' => veq v v'
                | None => false
                end) a.

(** Every entry of [a] occurs in [b], under an equal key and with the same
    value; two dicts have the same content when this holds both ways. *)
Definition dict_incl (a b : list (K * V)) : Prop :=
  forall k v, In (k, v) a -> exists k', keq k k' = true /\ In (k', v) b.

Definition same_content (a b : list (K * V)) : Prop :=
  dict_incl a b /\ dict_incl b a.

End Dict.

End Py.

Import Py.

#[global] Instance Result_ret : MRet Py.Result := @Py.Ok.
#[global] Instance Result_bind : MBind Py.Result := fun _ _ k r => Py.bind r k.

(** ** External collaborators

    The unit service ([small_classes.qty] and the unit objects it returns)
    and the numeric tower behind coefficients and exponents are not part of
    the modelled files; they are kept abstract. *)

Class Domain : Type := {
  (** unit objects as [qty] returns them *)
  Units : Type;
  Units_eq_dec :: EqDecision Units;
  (** [qty(unitrepr)]; [None] when the unit service rejects the string *)
  qty : string -> option Units;
  (** [bool(u)] for a unit object *)
  units_truthy : Units -> bool;
  (** coefficients, exponents and numeric attribute values *)
  Num : Type;
  Num_eq_dec :: EqDecision Num;
  (** the integer literal [0] *)
  num_zero : Num;
  (** [bool(c)] and [c <= 0] *)
  num_truthy : Num -> bool;
  num_nonpos : Num -> bool
}.

(** ** Attribute values and keys

    [descr] is an open attribute bag; its values are the Python objects the
    modelled code stores or reads: [None], strings, numbers, unit objects,
    lineages (lists of [(model name, model number)]), index tuples and keys
    (the [veckey] back-reference).  A [VarKey] records the instance
    attributes [__init__] assigns; [key] (the object itself) and [hmap] (the
    monomial [{self: 1}]) are determined by the rest and are left out. *)

Section Keys.
Context `{Dom : Domain}.

Inductive Value : Type :=
| VNone
| VStr (s : string)
| VNum (x : Num)
| VQty (q : Units)
| VLineage (l : list (string * Z))
| VIdx (i : list Z)
| VKey (k : VarKey)
with VarKey : Type :=
| MkVarKey (descr : gmap string Value)
           (cleanstr eqstr : string)
           (_hashvalue : Z)
           (keys : list Value)
           (veckey_attr : option VarKey).

Definition descr (k : VarKey) : gmap string Value :=
  let 'MkVarKey d _ _ _ _ _ := k in d.
Definition cleanstr (k : VarKey) : string :=
  let 'MkVarKey _ c _ _ _ _ := k in c.
Definition eqstr (k : VarKey) : string :=
  let 'MkVarKey _ _ e _ _ _ := k in e.
Definition _hashvalue (k : VarKey) : Z :=
  let 'MkVarKey _ _ _ h _ _ := k in h.
Definition keys (k : VarKey) : list Value :=
  let 'MkVarKey _ _ _ _ ks _ := k in ks.
Definition veckey_attr (k : VarKey) : option VarKey :=
  let 'MkVarKey _ _ _ _ _ v := k in v.

End Keys.

(** The interpreter's [hash] and [str] on objects rendered outside the
    modelled files, and the naming helper inherited from [GPkitObject]. *)

Class Runtime `{Dom : Domain} : Type := {
  (** [hash(s)] for a string and [hash(n)] for an integer *)
  hash_str : string -> Z;
  hash_int : Z -> Z;
  (** [str(v)] for numbers, unit objects, lineage lists and keys *)
  str_object : Value -> string;
  (** [self.lineagestr(modelnums)], reading the lineage from [self.descr] *)
  lineagestr : gmap string Value -> bool -> string;
  (** names of the attributes a key inherits from [GPkitObject] *)
  inherited_attr : string -> bool
}.

(** ** [gpkit/varkey.py] *)

Module varkey.
Section VarKey.
Context {Dom : Domain} {Rt : Runtime}.

(** [bool(v)]. *)
Definition py_truthy (v : Value) : bool :=
  match v with
  | VNone => false
  | VStr s => negb (bool_decide (s = EmptyString))
  | VNum x => num_truthy x
  | VQty q => units_truthy q
  | VLineage l => negb (bool_decide (l = []))
  | VIdx i => negb (bool_decide (i = []))
  | VKey _ => true
  end.

(** [str(v)], as also used by the ["%s"] conversions. *)
Definition py_str (v : Value) : string :=
  match v with
  | VNone => "None"
  | VStr s => s
  | VIdx i => Py.str_int_tuple i
  | _ => str_object v
  end.

(** [a or b]. *)
Definition py_or (a b : Value) : Value := if py_truthy a then a else b.

(** [a == b] between attribute values; keys compare by [eqstr] (see
    [__eq__] below, which answers [False] for anything that is not a key). *)
Definition py_eq (a b : Value) : bool :=
  match a, b with
  | VNone, VNone => true
  | VStr s, VStr t => bool_decide (s = t)
  | VNum x, VNum y => bool_decide (x = y)
  | VQty q, VQty r => bool_decide (q = r)
  | VLineage l, VLineage m => bool_decide (l = m)
  | VIdx i, VIdx j => bool_decide (i = j)
  | VKey k, VKey k' => bool_decide (eqstr k = eqstr k')
  | _, _ => false
  end.

(** [s.add(v)] on a set kept as a duplicate-free list. *)
Definition set_add (v : Value) (s : list Value) : list Value :=
  if existsb (py_eq v) s then s else s ++ [v].

(** Modelled from the spec: [small_classes.Count], the process-wide
    creation-order counter behind [VarKey.unique_id], is not among the
    modelled files.  The state is the last value handed out; [next]
    increments it and returns the new value. *)
Definition Count : Type := Z.
Definition Count_next (c : Count) : Count * Z := (c + 1, c + 1).

(** Code that may raise and that reads or advances the counter: the counter
    is process-wide, so it survives an exception. *)
Definition M (A : Type) : Type := Count -> Count * Result A.

#[export] Instance M_ret : MRet M := fun _ a c => (c, Ok a).
#[export] Instance M_bind : MBind M := fun _ _ k m c =>
  match m c with
  | (c', Ok a) => k a c'
  | (c', Raise e) => (c', Raise e)
  end.

Definition lift {A : Type} (r : Result A) : M A := fun c => (c, r).

(** [unique_id = Count().next] *)
Definition unique_id : M Z := fun c => let '(c', n) := Count_next c in (c', Ok n).

Definition subscripts : list string := ["lineage"; "idx"].

(** [__getattr__]: the fallback of attribute lookup, a read of the bag with
    default [None].  It reads [self] through [descr] only, so it is stated on
    the bag; this lets [__init__] use it while [self] is being built. *)
Definition __getattr__ (self_descr : gmap string Value) (attr : string) : Value :=
  default VNone (self_descr !! attr).

(** [str_without(excluded)].  [self.name] is expected to be a string; with
    any other value the callers in this file fail with a [TypeError] as soon
    as they concatenate the result, which is reported here. *)
Definition str_without (self_descr : gmap string Value) (excluded : list string)
  : Result string :=
  match __getattr__ self_descr "name" with
  | VStr name =>
      Ok (foldl
            (fun (string_ : string) (subscript : string) =>
               if py_truthy (__getattr__ self_descr subscript)
                  && negb (bool_decide (subscript ∈ excluded))
               then
                 let substring :=
                   if bool_decide (subscript = "lineage")
                   then lineagestr self_descr
                          (negb (bool_decide ("modelnums" ∈ excluded)))
                   else py_str (__getattr__ self_descr subscript) in
                 string_ +:+ "_" +:+ substring
               else string_)
            name subscripts)
  | _ => Raise TypeError
  end.

(** The unit-like inputs that mean "dimensionless":
    the empty string, ["-"] and [None]. *)
Definition dimensionless (unitrepr : Value) : bool :=
  existsb (py_eq unitrepr) [VStr EmptyString; VStr "-"; VNone].

(** The placeholder of an anonymous key: ["\\fbox{%s}" % n]. *)
Definition fbox (n : Z) : string := "\fbox{" +:+ Py.str_int n +:+ "}".

(** [self.unitrepr or self.units], the unit-like input of a construction. *)
Definition unit_input (self_descr : gmap string Value) : Value :=
  py_or (__getattr__ self_descr "unitrepr") (__getattr__ self_descr "units").

(** The [else] branch of [__init__]: fill the bag from the keyword
    arguments, name the key and normalise its units.  A unit-like input that
    is neither a string nor [None] makes the unit service or the later
    concatenation into [eqstr] fail; this is reported as [TypeError]. *)
Definition fresh_descr (name : Value) (kwargs : gmap string Value)
  : M (gmap string Value) :=
  nm ← (if py_truthy name then mret (py_str name)
        else n ← unique_id; mret (fbox n));
  let d := <["name" := VStr nm]> kwargs in
  let unitrepr := unit_input d in
  if dimensionless unitrepr then
    mret (<["unitrepr" := VStr "-"]> (<["units" := VNone]> d))
  else
    match unitrepr with
    | VStr u =>
        match qty u with
        | Some q => mret (<["unitrepr" := unitrepr]> (<["units" := VQty q]> d))
        | None => lift (Raise UnitError)
        end
    | _ => lift (Raise TypeError)
    end.

(** The bag of the new key: the bag of the key passed as [name], shared,
    or a fresh one. *)
Definition init_descr (name : Value) (kwargs : gmap string Value)
  : M (gmap string Value) :=
  match name with
  | VKey other => mret (descr other)
  | _ => fresh_descr name kwargs
  end.

(** [self.cleanstr + str(self.lineage) + self.unitrepr] *)
Definition make_eqstr (self_descr : gmap string Value) (cleanstr : string)
  : Result string :=
  match __getattr__ self_descr "unitrepr" with
  | VStr u => Ok (cleanstr +:+ py_str (__getattr__ self_descr "lineage") +:+ u)
  | _ => Raise TypeError
  end.

(** [VarKey(name, **kwargs)].  The constructor calls itself to synthesise
    the [veckey] of a vector component; [fuel] bounds the depth of that
    recursion.  Adding a list to the set [keys] is a [TypeError]. *)
Fixpoint __init__fuel (fuel : nat) (name : Value) (kwargs : gmap string Value)
  : M VarKey :=
  match fuel with
  | O => lift (Raise RecursionError)
  | S fuel' =>
      d ← init_descr name kwargs;
      cleanstr ← lift (str_without d ["modelnums"]);
      eqstr ← lift (make_eqstr d cleanstr);
      let hashvalue := hash_str eqstr in
      let keys0 := set_add (VStr cleanstr) (set_add (__getattr__ d "name") []) in
      match d !! "idx" with
      | None => mret (MkVarKey d cleanstr eqstr hashvalue keys0 None)
      | Some _ =>
          veckey_attr ←
            match d !! "veckey" with
            | None =>
                let vecdescr := delete "idx" d in
                vk ← __init__fuel fuel' (default VNone (vecdescr !! "name"))
                       (delete "name" vecdescr);
                mret (Some vk)
            | Some _ => mret None
            end;
          let veckey := match veckey_attr with
                        | Some vk => VKey vk
                        | None => __getattr__ d "veckey"
                        end in
          match veckey with
          | VLineage _ => lift (Raise TypeError)
          | _ =>
              s1 ← lift (str_without d ["idx"]);
              s2 ← lift (str_without d ["idx"; "modelnums"]);
              mret (MkVarKey d cleanstr eqstr hashvalue
                      (set_add (VStr s2) (set_add (VStr s1) (set_add veckey keys0)))
                      veckey_attr)
          end
      end
  end.

(** The recursion never goes deeper than the one nested call for the
    [veckey], so two units of fuel run every construction to its end (see
    [__init__fuel_enough]). *)
Definition __init__ : Value -> gmap string Value -> M VarKey := __init__fuel 2.

(** A process as far as keys are concerned: constructor calls in sequence,
    each starting from the counter the previous one left. *)
Fixpoint run (calls : list (Value * gmap string Value)) (c : Count)
  : list (Result VarKey) :=
  match calls with
  | [] => []
  | (name, kwargs) :: rest =>
      let '(c', r) := __init__ name kwargs c in r :: run rest c'
  end.

(** [self.veckey]: the instance attribute when the constructor synthesised
    one, the bag's entry otherwise. *)
Definition veckey (self : VarKey) : Value :=
  match veckey_attr self with
  | Some vk => VKey vk
  | None => __getattr__ (descr self) "veckey"
  end.

(** [__hash__] *)
Definition __hash__ (self : VarKey) : Z := _hashvalue self.

(** [__eq__]: only objects with a [descr], that is keys, can be equal. *)
Definition __eq__ (self : VarKey) (other : Value) : bool :=
  match other with
  | VKey o => bool_decide (eqstr self = eqstr o)
  | _ => false
  end.

(** [__ne__] *)
Definition __ne__ (self : VarKey) (other : Value) : bool := negb (__eq__ self other).

(** The [models] property: the first row of [zip] applied to the unpacked
    lineage. *)
Definition models (self : VarKey) : Result (list string) :=
  match __getattr__ (descr self) "lineage" with
  | VLineage [] => Raise IndexError
  | VLineage l => Ok (map fst l)
  | VStr EmptyString => Raise IndexError
  | VStr s => Ok (map (fun a => String a EmptyString) (list_ascii_of_string s))
  | VIdx [] => Raise IndexError
  | _ => Raise TypeError
  end.

(** What reading an attribute of a key can answer. *)
Inductive Attr : Type :=
| AValue (v : Value)
| ABag (d : gmap string Value)
| AInt (n : Z)
| ASet (s : list Value)
| ASelf
| AHmap
| ANames (l : list string)
| AClass (name : string)
| AInherited (name : string).

(** The attributes [__init__] sets directly on the object. *)
Definition instance_dict (self : VarKey) : list (string * Attr) :=
  [("descr", ABag (descr self)); ("key", ASelf);
   ("cleanstr", AValue (VStr (cleanstr self)));
   ("eqstr", AValue (VStr (eqstr self)));
   ("_hashvalue", AInt (_hashvalue self));
   ("keys", ASet (keys self))]
  ++ match veckey_attr self with
     | Some vk => [("veckey", AValue (VKey vk))]
     | None => []
     end
  ++ [("hmap", AHmap)].

(** The methods and constants of the class body. *)
Definition class_dict : list string :=
  ["unique_id"; "subscripts"; "__init__"; "__repr__"; "__getstate__";
   "__setstate__"; "str_without"; "__getattr__"; "latex_unitstr"; "latex";
   "_repr_latex_"; "__hash__"; "__eq__"; "__ne__"].

(** [self.attr]: the property of the class first, then the instance, then
    the class and what it inherits, and [__getattr__] when all of these
    miss. *)
Definition getattr (self : VarKey) (attr : string) : Result Attr :=
  if bool_decide (attr = "models") then
    names ← models self; Ok (ANames names)
  else
    match Py.dict_get String.eqb attr (instance_dict self) with
    | Some a => Ok a
    | None =>
        if bool_decide (attr ∈ class_dict) then Ok (AClass attr)
        else if inherited_attr attr then Ok (AInherited attr)
        else Ok (AValue (__getattr__ (descr self) attr))
    end.

Definition unitrepr_str (self : VarKey) : string :=
  py_str (__getattr__ (descr self) "unitrepr").

End VarKey.
End varkey.

(** ** [gpkit/nomials/data.py] *)

Module data.
Section NomialData.
Context {Dom : Domain} {Rt : Runtime}.

(** Modelled from the spec: [small_classes.HashVector], the exponent vector
    of one term, is not among the modelled files.  It is a [dict] from keys
    to exponents; two vectors are equal when they have identical key sets
    and identical exponents. *)
Definition HashVector : Type := list (VarKey * Num).

Definition VarKey_eq (a b : VarKey) : bool := varkey.__eq__ a (VKey b).
Definition Num_eq (x y : Num) : bool := bool_decide (x = y).

Definition HashVector_eq (a b : HashVector) : bool :=
  Py.dict_eq VarKey_eq Num_eq a b.

(** Modelled from the spec: [nomials.map.NomialMap], the monomial map, is
    not among the modelled files.  It is a [dict] from exponent vectors to
    coefficients with one attached unit; [==] compares the mapping (same
    terms, same coefficients) and leaves the unit to the caller. *)
Record NomialMap : Type := MkNomialMap {
  terms : list (HashVector * Num);
  map_units : option Units
}.

Definition NomialMap_eq (a b : NomialMap) : bool :=
  Py.dict_eq HashVector_eq Num_eq (terms a) (terms b).
Definition NomialMap_ne (a b : NomialMap) : bool := negb (NomialMap_eq a b).

(** Modelled from the spec: [NomialMap.set_units(None)] leaves the map with
    no unit. *)
Definition set_units (m : NomialMap) (u : option Units) : NomialMap :=
  {| terms := terms m; map_units := u |}.

(** The collaborators of [diff] and [__hash__] that live in files outside
    the modelled ones: the resolution of a variable reference against a key
    set ([keydict.KeySet.__getitem__], which applies the lineage rules and
    answers with the set of matching keys), the derivative of a monomial map
    ([NomialMap.diff]) and the content hash of a map ([HashVector.__hash__]). *)
Class Algebra : Type := {
  KeySet_getitem : list VarKey -> Value -> list VarKey;
  NomialMap_diff : NomialMap -> VarKey -> NomialMap;
  NomialMap_hash : list (HashVector * Num) -> Z
}.
Context {Alg : Algebra}.

(** [keydict.KeySet(vks)] and [keydict.KeyDict({...})]: the containers are
    kept as the entries they are built from. *)
Definition KeySet : Type := list VarKey.
Definition KeyDict : Type := list (VarKey * Value).

(** [np.array(values)], multiplied by the unit when there is a truthy one. *)
Definition CsArray : Type := (list Num * option Units)%type.

Record NomialData : Type := MkNomialData {
  hmap : NomialMap;
  vks : list VarKey;
  units : option Units;
  any_nonpositive_cs : bool;
  _hashvalue : option Z;
  _varlocs : option (list (VarKey * list nat));
  _exps : option (list HashVector);
  _cs : option CsArray;
  _varkeys : option KeySet;
  _values : option KeyDict
}.

(** [_reset]: all six memoised attributes back to [None]. *)
Definition _reset (self : NomialData) : NomialData :=
  {| hmap := hmap self; vks := vks self; units := units self;
     any_nonpositive_cs := any_nonpositive_cs self;
     _hashvalue := None; _varlocs := None; _exps := None; _cs := None;
     _varkeys := None; _values := None |}.

(** [vk in self.vks] *)
Definition vks_has (vk : VarKey) (seen : list VarKey) : bool :=
  existsb (fun k => VarKey_eq k vk) seen.

(** [__init__(hmap)] *)
Definition __init__ (hmap0 : NomialMap) : NomialData :=
  let vks0 :=
    foldl (fun seen (term : HashVector * Num) =>
             foldl (fun seen' (entry : VarKey * Num) =>
                      if vks_has (fst entry) seen' then seen'
                      else seen' ++ [fst entry])
                   seen (fst term))
          [] (terms hmap0) in
  _reset
    {| hmap := hmap0; vks := vks0; units := map_units hmap0;
       any_nonpositive_cs := existsb num_nonpos (map snd (terms hmap0));
       _hashvalue := None; _varlocs := None; _exps := None; _cs := None;
       _varkeys := None; _values := None |}.

(** The memoised properties return the receiver as they leave it together
    with the value read. *)

(** [exps] *)
Definition exps (self : NomialData) : NomialData * list HashVector :=
  match _exps self with
  | Some e => (self, e)
  | None =>
      let e := map fst (terms (hmap self)) in
      ({| hmap := hmap self; vks := vks self; units := units self;
          any_nonpositive_cs := any_nonpositive_cs self;
          _hashvalue := _hashvalue self; _varlocs := _varlocs self;
          _exps := Some e; _cs := _cs self;
          _varkeys := _varkeys self; _values := _values self |}, e)
  end.

(** [self._varlocs[var].append(i)], creating the list when absent *)
Definition varlocs_append (var : VarKey) (i : nat)
  (locs : list (VarKey * list nat)) : list (VarKey * list nat) :=
  match Py.dict_get VarKey_eq var locs with
  | Some l => Py.dict_set VarKey_eq var (l ++ [i]) locs
  | None => locs ++ [(var, [i])]
  end.

(** [varlocs] *)
Definition varlocs (self : NomialData) : NomialData * list (VarKey * list nat) :=
  match _varlocs self with
  | Some l => (self, l)
  | None =>
      let '(self1, e) := exps self in
      let l :=
        foldl (fun locs (ie : nat * HashVector) =>
                 foldl (fun locs' (entry : VarKey * Num) =>
                          varlocs_append (fst entry) (fst ie) locs')
                       locs (snd ie))
              [] (imap (fun i exp => (i, exp)) e) in
      ({| hmap := hmap self1; vks := vks self1; units := units self1;
          any_nonpositive_cs := any_nonpositive_cs self1;
          _hashvalue := _hashvalue self1; _varlocs := Some l;
          _exps := _exps self1; _cs := _cs self1;
          _varkeys := _varkeys self1; _values := _values self1 |}, l)
  end.

(** [cs] *)
Definition cs (self : NomialData) : NomialData * CsArray :=
  match _cs self with
  | Some a => (self, a)
  | None =>
      let mags := map snd (terms (hmap self)) in
      let a :=
        match map_units (hmap self) with
        | Some u => if units_truthy u then (mags, Some u) else (mags, None)
        | None => (mags, None)
        end in
      ({| hmap := hmap self; vks := vks self; units := units self;
          any_nonpositive_cs := any_nonpositive_cs self;
          _hashvalue := _hashvalue self; _varlocs := _varlocs self;
          _exps := _exps self; _cs := Some a;
          _varkeys := _varkeys self; _values := _values self |}, a)
  end.

(** [str(self.hmap.units)] *)
Definition str_units (u : option Units) : string :=
  varkey.py_str (match u with Some q => VQty q | None => VNone end).

(** [__hash__] *)
Definition __hash__ (self : NomialData) : NomialData * Z :=
  match _hashvalue self with
  | Some h => (self, h)
  | None =>
      let h := hash_int (NomialMap_hash (terms (hmap self))
                         + hash_str (str_units (map_units (hmap self)))) in
      ({| hmap := hmap self; vks := vks self; units := units self;
          any_nonpositive_cs := any_nonpositive_cs self;
          _hashvalue := Some h; _varlocs := _varlocs self;
          _exps := _exps self; _cs := _cs self;
          _varkeys := _varkeys self; _values := _values self |}, h)
  end.

(** [varkeys] *)
Definition varkeys (self : NomialData) : NomialData * KeySet :=
  match _varkeys self with
  | Some ks => (self, ks)
  | None =>
      let ks : KeySet := vks self in
      ({| hmap := hmap self; vks := vks self; units := units self;
          any_nonpositive_cs := any_nonpositive_cs self;
          _hashvalue := _hashvalue self; _varlocs := _varlocs self;
          _exps := _exps self; _cs := _cs self;
          _varkeys := Some ks; _values := _values self |}, ks)
  end.

(** [values] *)
Definition values (self : NomialData) : NomialData * KeyDict :=
  match _values self with
  | Some vs => (self, vs)
  | None =>
      let vs : KeyDict :=
        omap (fun k => match descr k !! "value" with
                       | Some v => Some (k, v)
                       | None => None
                       end) (vks self) in
      ({| hmap := hmap self; vks := vks self; units := units self;
          any_nonpositive_cs := any_nonpositive_cs self;
          _hashvalue := _hashvalue self; _varlocs := _varlocs self;
          _exps := _exps self; _cs := _cs self;
          _varkeys := _varkeys self; _values := Some vs |}, vs)
  end.

(** [repr(k)] is [VarKey.__repr__], that is [str_without()]. *)
Definition repr_key (k : VarKey) : Result string := varkey.str_without (descr k) [].

(** [str(list(varset))] *)
Definition str_key_list (l : list VarKey) : Result string :=
  names ← mapM repr_key l;
  Ok ("[" +:+ Py.join ", " names +:+ "]").

(** [diff(var)]: the receiver as the call leaves it, and the derivative or
    the exception raised. *)
Definition diff (self : NomialData) (var : Value) : NomialData * Result NomialData :=
  let '(self1, ks) := varkeys self in
  let varset := KeySet_getitem ks var in
  (self1,
   if (1 <? length varset)%nat then
     listing ← str_key_list varset;
     Raise (ValueError ("multiple variables " +:+ listing
                        +:+ " found for key " +:+ varkey.py_str var))
   else
     match varset with
     | [] =>
         let hmap0 := {| terms := [([], num_zero)]; map_units := None |} in
         let hmap1 := set_units hmap0 None in
         Ok (__init__ hmap1)
     | var1 :: _ =>
         let hmap1 := NomialMap_diff (hmap self) var1 in
         Ok (__init__ hmap1)
     end).

(** [__eq__], for [other] a [NomialData] (it has an [hmap]). *)
Definition __eq__ (self other : NomialData) : bool :=
  if NomialMap_ne (hmap self) (hmap other) then false
  else if negb (bool_decide (units self = units other)) then false
  else true.

(** What the interpreter guarantees of the dicts inside a monomial map: no
    exponent vector stores a key twice and the map stores no exponent vector
    twice. *)
Definition terms_wf (ts : list (HashVector * Num)) : bool :=
  forallb (fun t => Py.dict_wf VarKey_eq (fst t)) ts
  && Py.dict_wf HashVector_eq ts.

Definition map_wf (m : NomialMap) : bool := terms_wf (terms m).

(** Same terms with the same coefficients, whatever the enumeration order. *)
Definition same_terms (a b : NomialMap) : Prop :=
  Py.same_content HashVector_eq (terms a) (terms b).

(** The value [__hash__] computes on a cache miss. *)
Definition content_hash (m : NomialMap) : Z :=
  hash_int (NomialMap_hash (terms m) + hash_str (str_units (map_units m))).

(** Modelled from the spec: [HashVector.__hash__] is not among the modelled
    files; the hash of a map is a pure function of its content, so equal
    maps hash alike whatever their construction order. *)
Definition hash_is_content_pure : Prop :=
  forall t1 t2 : list (HashVector * Num),
    terms_wf t1 = true -> terms_wf t2 = true ->
    Py.dict_eq HashVector_eq Num_eq t1 t2 = true ->
    NomialMap_hash t1 = NomialMap_hash t2.

(** What holds of every object a program can hold: [units] is the unit of
    the map, and the hash cache is empty or holds the hash of the content. *)
Definition cache_ok (d : NomialData) : Prop :=
  units d = map_units (hmap d)
  /\ (_hashvalue d = None \/ _hashvalue d = Some (content_hash (hmap d))).

(** The objects a program can hold: built by [__init__], then read through
    the memoised properties, differentiated or reset. *)
Inductive reachable : NomialData -> Prop :=
| reach_init (m : NomialMap) : reachable (__init__ m)
| reach_reset (d : NomialData) : reachable d -> reachable (_reset d)
| reach_exps (d : NomialData) : reachable d -> reachable (fst (exps d))
| reach_varlocs (d : NomialData) : reachable d -> reachable (fst (varlocs d))
| reach_cs (d : NomialData) : reachable d -> reachable (fst (cs d))
| reach_hash (d : NomialData) : reachable d -> reachable (fst (__hash__ d))
| reach_varkeys (d : NomialData) : reachable d -> reachable (fst (varkeys d))
| reach_values (d : NomialData) : reachable d -> reachable (fst (values d))
| reach_diff (d : NomialData) (var : Value) :
    reachable d -> reachable (fst (diff d var)).

End NomialData.
End data.

(** ** A concrete host

    One instance of the abstract collaborators, on which the model runs:
    units are their own representation strings, numbers are integers, the
    hash of a string is a polynomial in its characters, a lineage is rendered
    the way the interpreter prints a list of pairs, and a reference resolves
    to the keys of that name (a string) or equal to it (a key). *)

Module Demo.

Definition demo_domain : Domain :=
  {| Units := string;
     qty := fun s => Some s;
     units_truthy := fun _ => true;
     Num := Z;
     num_zero := 0;
     num_truthy := fun z => negb (z =? 0)%Z;
     num_nonpos := fun z => (z <=? 0)%Z |}.

#[local] Existing Instance demo_domain.

Definition demo_hash_str (s : string) : Z :=
  foldl (fun h a => h * 31 + Z.of_nat (nat_of_ascii a)) 0 (list_ascii_of_string s).

Definition demo_str_pair (p : string * Z) : string :=
  "('" +:+ fst p +:+ "', " +:+ Py.repr_int (snd p) +:+ ")".

Definition demo_str_object (v : Value) : string :=
  match v with
  | VNum z => Py.str_int z
  | VQty q => q
  | VLineage l => "[" +:+ Py.join ", " (map demo_str_pair l) +:+ "]"
  | VKey k => cleanstr k
  | _ => EmptyString
  end.

Definition demo_lineagestr (d : gmap string Value) (modelnums : bool) : string :=
  match d !! "lineage" with
  | Some (VLineage l) =>
      Py.join "/" (map (fun p : string * Z =>
                          if modelnums && negb (snd p =? 0)%Z
                          then fst p +:+ Py.str_int (snd p) else fst p) l)
  | _ => EmptyString
  end.

Definition demo_runtime : Runtime :=
  {| hash_str := demo_hash_str;
     hash_int := fun n => n;
     str_object := demo_str_object;
     lineagestr := demo_lineagestr;
     inherited_attr := fun a =>
       bool_decide (a ∈ ["lineagestr"; "unitstr"; "__class__"; "__dict__";
                         "__doc__"; "__module__"; "__str__"]) |}.

#[local] Existing Instance demo_runtime.

Definition demo_getitem (ks : list VarKey) (var : Value) : list VarKey :=
  match var with
  | VStr s =>
      List.filter (fun k => match descr k !! "name" with
                            | Some (VStr n) => String.eqb n s
                            | _ => false
                            end) ks
  | VKey k0 => List.filter (fun k => varkey.__eq__ k (VKey k0)) ks
  | _ => []
  end.

Definition demo_diff_term (vk : VarKey) (t : data.HashVector * Z)
  : option (data.HashVector * Z) :=
  match Py.dict_get data.VarKey_eq vk (fst t) with
  | Some x =>
      Some (if (x =? 1)%Z
            then List.filter (fun e => negb (data.VarKey_eq (fst e) vk)) (fst t)
            else Py.dict_set data.VarKey_eq vk (x - 1) (fst t),
            snd t * x)
  | None => None
  end.

Definition demo_diff (m : data.NomialMap) (vk : VarKey) : data.NomialMap :=
  {| data.terms := omap (demo_diff_term vk) (data.terms m);
     data.map_units := data.map_units m |}.

Definition demo_term_hash (t : data.HashVector * Z) : Z :=
  31 * Z.of_nat (length (fst t)) + snd t.

Definition demo_map_hash (ts : list (data.HashVector * Z)) : Z :=
  foldr (fun t acc => Z.lxor (demo_term_hash t) acc) 0 ts.

Definition demo_algebra : data.Algebra :=
  {| data.KeySet_getitem := demo_getitem;
     data.NomialMap_diff := demo_diff;
     data.NomialMap_hash := demo_map_hash |}.

#[local] Existing Instance demo_algebra.

(** The key a construction returns, [None] when it raises. *)
Definition built (name : Value) (kwargs : gmap string Value) (c : varkey.Count)
  : option VarKey :=
  match snd (varkey.__init__ name kwargs c) with
  | Ok k => Some k
  | Raise _ => None
  end.

(** [VarKey("x")], [VarKey("y")] and [VarKey("x")] inside the models
    [A] numbered 0 and 1. *)
Definition kw_A0 : gmap string Value := {["lineage" := VLineage [("A", 0)]]}.
Definition kw_A1 : gmap string Value := {["lineage" := VLineage [("A", 1)]]}.

Definition no_key : VarKey := MkVarKey ∅ EmptyString EmptyString 0 [] None.

Definition key_x : VarKey :=
  Eval vm_compute in default no_key (built (VStr "x") ∅ 0).
Definition key_y : VarKey :=
  Eval vm_compute in default no_key (built (VStr "y") ∅ 0).
Definition key_x_A0 : VarKey :=
  Eval vm_compute in default no_key (built (VStr "x") kw_A0 0).
Definition key_x_A1 : VarKey :=
  Eval vm_compute in default no_key (built (VStr "x") kw_A1 0).

(** [3*x], [x + x_A] and [3*x - y**2] with its terms in either order. *)
Definition term_3x : data.HashVector * Z := ([(key_x, 1)], 3).
Definition term_y2 : data.HashVector * Z := ([(key_y, 2)], -1).

Definition map_3x : data.NomialMap :=
  {| data.terms := [term_3x]; data.map_units := None |}.
Definition map_x_xA : data.NomialMap :=
  {| data.terms := [([(key_x, 1)], 1); ([(key_x_A0, 1)], 1)];
     data.map_units := None |}.
Definition map_xy : data.NomialMap :=
  {| data.terms := [term_3x; term_y2]; data.map_units := None |}.
Definition map_yx : data.NomialMap :=
  {| data.terms := [term_y2; term_3x]; data.map_units := None |}.

(** Keyword arguments of a component of a vector, and two spellings of
    "no unit". *)
Definition kw_idx : gmap string Value := {["idx" := VIdx [0]]}.
Definition kw_units_empty : gmap string Value := {["units" := VStr EmptyString]}.
Definition kw_units_none : gmap string Value := {["units" := VNone]}.

(** A run of three constructions, the first and the last without a name,
    and the keys they give when the counter starts at [-1]. *)
Definition three_calls : list (Value * gmap string Value) :=
  [(VNone, ∅); (VStr "x", ∅); (VNone, ∅)].

Definition key_anon0 : VarKey :=
  Eval vm_compute in default no_key (built VNone ∅ (-1)).
Definition key_anon1 : VarKey :=
  Eval vm_compute in default no_key (built VNone ∅ 0).

(** The component [v_(0,)] of a vector [v]. *)
Definition key_v0 : VarKey :=
  Eval vm_compute in default no_key (built (VStr "v") kw_idx 0).

Definition data_3x : data.NomialData := data.__init__ map_3x.
Definition data_x_xA : data.NomialData := data.__init__ map_x_xA.
Definition data_xy : data.NomialData := data.__init__ map_xy.
Definition data_yx : data.NomialData := data.__init__ map_yx.

End Demo.

(** ** Reference views

    What the derived views of a [NomialData] are meant to hold, written
    directly on the exponent vectors. *)

Section ViewSpecs.
Context {Dom : Domain} {Rt : Runtime}.

(** The indices of the exponent vectors that hold the key, in increasing
    order. *)
Definition term_indices (vk : VarKey) (e : list data.HashVector) : list nat :=
  concat (imap (fun i exp =>
                  if Py.dict_has data.VarKey_eq vk exp then [i] else []) e).

End ViewSpecs.

(** ** [gpkit/varkey.py], the remaining methods *)

(** Whether a unit object has a truthy [__call__] attribute; like the unit
    objects themselves this is the unit service's business. *)
Class UnitCalls `{Dom : Domain} : Type := {
  units_callable : Units -> bool
}.

Module varkey_more.
Section VarKeyMore.
Context {Dom : Domain} {Rt : Runtime} {UC : UnitCalls}.

(** [__repr__] *)
Definition __repr__ (self : VarKey) : Result string :=
  varkey.str_without (descr self) [].

(** [bool(getattr(value, "__call__", None))]: the built-in values have no
    such attribute; a key answers through [__getattr__], from its bag. *)
Definition has_call (value : Value) : bool :=
  match value with
  | VKey k => varkey.py_truthy (varkey.__getattr__ (descr k) "__call__")
  | VQty q => units_callable q
  | _ => false
  end.

(** [__getstate__]: the bag without [units], callables replaced by their
    [str]. *)
Definition __getstate__ (self : VarKey) : gmap string Value :=
  (fun value => if has_call value then VStr (varkey.py_str value) else value)
    <$> delete "units" (descr self).

(** [__setstate__(state)], that is [__init__] applied to the unpacked state: the
    entry [name] becomes the first argument, the rest the keyword arguments. *)
Definition __setstate__ (state : gmap string Value) : varkey.M VarKey :=
  varkey.__init__ (default VNone (state !! "name")) (delete "name" state).

(** [len(v)] *)
Definition py_len (v : Value) : Result nat :=
  match v with
  | VStr s => Ok (String.length s)
  | VLineage l => Ok (length l)
  | VIdx i => Ok (length i)
  | _ => Raise TypeError
  end.

(** [s[:-3] + s[-2:]] *)
Definition drop_third_last (s : string) : string :=
  String.substring 0 (String.length s - 3) s
  +:+ String.substring (String.length s - 2) 2 s.

(** The model names with their numbers, as [latex] lists them when the
    lineage is truthy.  The comprehension unpacks each element of the lineage
    into a name and a number: the characters of a string cannot be unpacked
    ([ValueError]), and a value that is not iterable, or whose elements are
    not, is a [TypeError]. *)
Definition latex_lineage (lineage : Value) : Result (list string) :=
  match lineage with
  | VLineage l =>
      Ok (map (fun p : string * Z =>
                 if (0 <? snd p)%Z then fst p +:+ "." +:+ Py.str_int (snd p)
                 else fst p) l)
  | VStr EmptyString => Ok []
  | VStr _ => Raise (ValueError "need more than 1 value to unpack")
  | VIdx [] => Ok []
  | _ => Raise TypeError
  end.

(** [latex(excluded)].  The running [string] starts as [self.name], whatever
    that is, and is a string from the first subscript on. *)
Definition latex (self : VarKey) (excluded : list string) : Result Value :=
  string_ ←
    foldl
      (fun (acc : Result Value) (subscript : string) =>
         string_ ← acc;
         match descr self !! subscript with
         | Some substring0 =>
             if negb (bool_decide (subscript ∈ excluded)) then
               substring ←
                 (if bool_decide (subscript = "lineage") then
                    names ←
                      (if varkey.py_truthy (varkey.__getattr__ (descr self) "lineage")
                          && negb (bool_decide ("modelnums" ∈ excluded))
                       then latex_lineage (varkey.__getattr__ (descr self) "lineage")
                       else varkey.models self);
                    Ok (Py.join "/" names)
                  else Ok (varkey.py_str substring0));
               let string1 :=
                 "{" +:+ varkey.py_str string_ +:+ "}_{" +:+ substring +:+ "}" in
               if bool_decide (subscript = "idx") then
                 n ← py_len substring0;
                 if (n =? 1)%nat then Ok (VStr (drop_third_last string1))
                 else Ok (VStr string1)
               else Ok (VStr string1)
             else Ok string_
         | None => Ok string_
         end)
      (Ok (varkey.__getattr__ (descr self) "name")) varkey.subscripts;
  if varkey.py_truthy (varkey.__getattr__ (descr self) "shape")
     && negb (varkey.py_truthy (varkey.__getattr__ (descr self) "idx"))
  then Ok (VStr ("\vec{" +:+ varkey.py_str string_ +:+ "}"))
  else Ok string_.

(** [_repr_latex_] *)
Definition _repr_latex_ (self : VarKey) : Result string :=
  body ← latex self [];
  Ok ("$$" +:+ varkey.py_str body +:+ "$$").

(** [str_without] as [results_table] of [solution_array.py] calls it, with
    the string ["models"] for [excluded]: [in] is then the substring test. *)
Definition str_without_in (self_descr : gmap string Value) (excluded : string)
  : Result string :=
  match varkey.__getattr__ self_descr "name" with
  | VStr name =>
      Ok (foldl
            (fun (string_ : string) (subscript : string) =>
               if varkey.py_truthy (varkey.__getattr__ self_descr subscript)
                  && negb (Py.contains subscript excluded)
               then
                 let substring :=
                   if bool_decide (subscript = "lineage")
                   then lineagestr self_descr
                          (negb (Py.contains "modelnums" excluded))
                   else varkey.py_str (varkey.__getattr__ self_descr subscript) in
                 string_ +:+ "_" +:+ substring
               else string_)
            name varkey.subscripts)
  | _ => Raise TypeError
  end.

End VarKeyMore.
End varkey_more.

(** ** More of the concrete host *)

Module DemoMore.
#[local] Existing Instance Demo.demo_domain.
#[local] Existing Instance Demo.demo_runtime.
#[local] Existing Instance Demo.demo_algebra.

(** No unit object of the host can be called. *)
Definition demo_unit_calls : UnitCalls := {| units_callable := fun _ => false |}.

(** [VarKey("z", value=5)] and the monomial [2*z*x]. *)
Definition kw_value : gmap string Value := {["value" := VNum 5]}.

Definition key_z : VarKey :=
  Eval vm_compute in default Demo.no_key (Demo.built (VStr "z") kw_value 0).

Definition map_zx : data.NomialMap :=
  {| data.terms := [([(key_z, 1); (Demo.key_x, 1)], 2)];
     data.map_units := None |}.

Definition data_zx : data.NomialData := data.__init__ map_zx.



(** [VarKey("x", units="m")]. *)
Definition kw_units_m : gmap string Value := {["units" := VStr "m"]}.

Definition key_x_m : VarKey :=
  Eval vm_compute in default Demo.no_key (Demo.built (VStr "x") kw_units_m 0).

(** The component [v_(0,)] of a vector [v] of the model [A]. *)
Definition kw_A0_idx : gmap string Value :=
  {["lineage" := VLineage [("A", 0)]; "idx" := VIdx [0]]}.

Definition key_vA0 : VarKey :=
  Eval vm_compute in default Demo.no_key (Demo.built (VStr "v") kw_A0_idx 0).

End DemoMore.

(** * Properties *)

(** ** Dicts compared by content *)

Section DictFacts.
Context {K V : Type} `{EqDecision V} (keq : K -> K -> bool) (P : K -> Prop).
Hypothesis keq_refl : forall k, P k -> keq k k = true.
Hypothesis keq_sym : forall a b, P a -> P b -> keq a b = true -> keq b a = true.
Hypothesis keq_trans : forall a b c, P a -> P b -> P c ->
  keq a b = true -> keq b c = true -> keq a c = true.

#[local] Abbreviation veq := (fun x y : V => bool_decide (x = y)).
#[local] Abbreviation keys_in d := (Forall (fun e : K * V => P (fst e)) d).

Lemma keys_in_In (d : list (K * V)) (k : K) (v : V) :
  keys_in d -> In (k, v) d -> P k.
Proof. intros HP Hin. apply (proj1 (List.Forall_forall _ _) HP (k, v) Hin). Qed.

Lemma dict_get_Some (k : K) (d : list (K * V)) (v : V) :
  Py.dict_get keq k d = Some v -> exists k', In (k', v) d /\ keq k' k = true.
Proof.
  induction d as [|[k0 v0] d IH]; simpl; [discriminate|].
  destruct (keq k0 k) eqn:E.
  - intros [= <-]. exists k0. auto.
  - intros H. destruct (IH H) as (k' & Hin & Hk). exists k'. auto.
Qed.

Lemma dict_get_None (k : K) (d : list (K * V)) :
  Py.dict_get keq k d = None -> forall k' v, In (k', v) d -> keq k' k = false.
Proof.
  induction d as [|[k0 v0] d IH]; simpl; [tauto|].
  destruct (keq k0 k) eqn:E; [discriminate|].
  intros H k' v [[= <- <-]|Hin]; eauto.
Qed.

Lemma dict_has_false (k : K) (d : list (K * V)) :
  Py.dict_has keq k d = false <-> forall k' v, In (k', v) d -> keq k' k = false.
Proof.
  unfold Py.dict_has. split.
  - destruct (Py.dict_get keq k d) eqn:E; [discriminate|].
    intros _. by apply dict_get_None.
  - intros H. destruct (Py.dict_get keq k d) eqn:E; [|done].
    apply dict_get_Some in E as (k' & Hin & Hk).
    rewrite (H _ _ Hin) in Hk. discriminate.
Qed.

Lemma dict_wf_cons (k : K) (v : V) (d : list (K * V)) :
  Py.dict_wf keq ((k, v) :: d) = true <->
  (forall k' v', In (k', v') d -> keq k' k = false) /\ Py.dict_wf keq d = true.
Proof.
  simpl. rewrite andb_true_iff, negb_true_iff, dict_has_false. tauto.
Qed.

Lemma dict_wf_remove (d1 : list (K * V)) (x : K * V) (d2 : list (K * V)) :
  keys_in (d1 ++ x :: d2) ->
  Py.dict_wf keq (d1 ++ x :: d2) = true -> Py.dict_wf keq (d1 ++ d2) = true.
Proof.
  induction d1 as [|[k v] d1 IH]; simpl app; intros HP Hwf.
  - destruct x as [k v]. by apply dict_wf_cons in Hwf as [_ ?].
  - apply dict_wf_cons in Hwf as [Hk Hwf]. apply dict_wf_cons. split.
    + intros k' v' Hin. apply (Hk k' v'). apply in_app_iff in Hin as [|];
        apply in_app_iff; simpl; auto.
    + apply IH; [by inversion HP|done].
Qed.

(** In a well-formed dict a key is stored under one entry only, so a lookup
    finds any stored entry whose key equals the probe. *)
Lemma dict_get_In (k k1 : K) (v1 : V) (d : list (K * V)) :
  keys_in d -> P k -> Py.dict_wf keq d = true ->
  In (k1, v1) d -> keq k1 k = true -> Py.dict_get keq k d = Some v1.
Proof.
  intros HP Pk. induction d as [|[k0 v0] d IH]; simpl; [tauto|].
  intros Hwf Hin Hk. apply andb_true_iff in Hwf as [Hnot Hwf].
  apply negb_true_iff in Hnot. inversion HP as [|? ? Pk0 HP']; subst; simpl in *.
  destruct Hin as [[= -> ->]|Hin].
  - by rewrite Hk.
  - assert (Pk1 : P k1).
    { apply (keys_in_In _ _ _ HP' Hin). }
    destruct (keq k0 k) eqn:E; [|by apply IH].
    exfalso. rewrite dict_has_false in Hnot.
    assert (keq k1 k0 = true) as Hc.
    { apply (keq_trans k1 k k0); auto. }
    rewrite (Hnot _ _ Hin) in Hc. discriminate.
Qed.

(** Peeling one matched entry off both sides. *)
Lemma dict_incl_peel (k : K) (v : V) (a b : list (K * V)) :
  keys_in ((k, v) :: a) -> keys_in b ->
  Py.dict_wf keq ((k, v) :: a) = true -> Py.dict_wf keq b = true ->
  Py.dict_incl keq ((k, v) :: a) b ->
  exists b1 k' b2,
    b = b1 ++ (k', v) :: b2 /\ keq k k' = true /\ P k' /\
    Py.dict_incl keq a (b1 ++ b2).
Proof.
  intros HPa HPb Hwfa Hwfb Hincl.
  destruct (Hincl k v (or_introl eq_refl)) as (k' & Hk & Hin).
  apply in_split in Hin as (b1 & b2 & ->).
  assert (Pk' : P k').
  { apply (keys_in_In _ k' v HPb), in_app_iff. simpl. auto. }
  exists b1, k', b2. repeat split; auto.
  intros k2 v2 Hin2.
  destruct (Hincl k2 v2 (or_intror Hin2)) as (k2' & Hk2 & Hin2').
  exists k2'. split; [done|].
  apply in_app_iff in Hin2' as [?|[[= <- <-]|?]]; apply in_app_iff; auto.
  exfalso. apply dict_wf_cons in Hwfa as [Hfresh _].
  inversion HPa as [|? ? Pk HPa']; subst; simpl in *.
  assert (Pk2 : P k2).
  { apply (keys_in_In _ _ _ HPa' Hin2). }
  assert (keq k2 k = true) as Hc.
  { apply (keq_trans k2 k' k); auto. }
  rewrite (Hfresh _ _ Hin2) in Hc. discriminate.
Qed.

Lemma keys_in_remove (d1 : list (K * V)) x d2 :
  keys_in (d1 ++ x :: d2) -> keys_in (d1 ++ d2).
Proof.
  rewrite !Forall_app. intros [? Hx]. inversion Hx; auto.
Qed.

(** An injection between finite dicts: sizes compare. *)
Lemma dict_incl_length (a : list (K * V)) : forall b : list (K * V),
  keys_in a -> keys_in b ->
  Py.dict_wf keq a = true -> Py.dict_wf keq b = true ->
  Py.dict_incl keq a b -> (length a <= length b)%nat.
Proof.
  induction a as [|[k v] a IH]; intros b HPa HPb Hwfa Hwfb Hincl; simpl; [lia|].
  destruct (dict_incl_peel k v a b) as (b1 & k' & b2 & -> & Hk & Pk' & Hincl');
    auto.
  assert ((length a <= length (b1 ++ b2))%nat) as Hle.
  { apply IH; auto.
    - by inversion HPa.
    - by apply keys_in_remove in HPb.
    - by apply dict_wf_cons in Hwfa as [_ ?].
    - by apply dict_wf_remove in Hwfb. }
  rewrite length_app in *. simpl. lia.
Qed.

(** With equal sizes the injection is onto. *)
Lemma dict_incl_onto (a : list (K * V)) : forall b : list (K * V),
  keys_in a -> keys_in b ->
  Py.dict_wf keq a = true -> Py.dict_wf keq b = true ->
  length a = length b ->
  Py.dict_incl keq a b -> Py.dict_incl keq b a.
Proof.
  induction a as [|[k v] a IH]; intros b HPa HPb Hwfa Hwfb Hlen Hincl.
  - destruct b; [|discriminate]. intros ? ? [].
  - destruct (dict_incl_peel k v a b) as (b1 & k' & b2 & -> & Hk & Pk' & Hincl');
      auto.
    assert (Py.dict_incl keq (b1 ++ b2) a) as Hback.
    { apply IH; auto.
      - by inversion HPa.
      - by apply keys_in_remove in HPb.
      - by apply dict_wf_cons in Hwfa as [_ ?].
      - by apply dict_wf_remove in Hwfb.
      - rewrite length_app in *. simpl in Hlen. lia. }
    inversion HPa as [|? ? Pk HPa']; subst; simpl in *.
    intros k2 v2 Hin.
    apply in_app_iff in Hin as [Hin|[[= <- <-]|Hin]].
    + destruct (Hback k2 v2) as (k2' & ? & ?); [apply in_app_iff; auto|].
      exists k2'. simpl. auto.
    + exists k. simpl. split; [apply keq_sym; auto|auto].
    + destruct (Hback k2 v2) as (k2' & ? & ?); [apply in_app_iff; auto|].
      exists k2'. simpl. auto.
Qed.

(** [==] on dicts decides equality of content. *)
Lemma dict_eq_same_content (a b : list (K * V)) :
  keys_in a -> keys_in b ->
  Py.dict_wf keq a = true -> Py.dict_wf keq b = true ->
  Py.dict_eq keq veq a b = true <-> Py.same_content keq a b.
Proof.
  intros HPa HPb Hwfa Hwfb. unfold Py.dict_eq, Py.same_content.
  rewrite andb_true_iff, Nat.eqb_eq, forallb_forall. split.
  - intros [Hlen Hall].
    assert (Py.dict_incl keq a b) as Hab.
    { intros k v Hin. specialize (Hall _ Hin). simpl in Hall.
      destruct (Py.dict_get keq k b) as [v'|] eqn:E; [|discriminate].
      apply bool_decide_eq_true in Hall as <-.
      apply dict_get_Some in E as (k' & Hin' & Hk). exists k'. split; [|done].
      apply keq_sym; auto.
      - apply (keys_in_In _ _ _ HPb Hin').
      - apply (keys_in_In _ _ _ HPa Hin). }
    split; [done|]. by apply dict_incl_onto.
  - intros [Hab Hba]. split.
    + apply Nat.le_antisymm; by apply dict_incl_length.
    + intros [k v] Hin. destruct (Hab k v Hin) as (k' & Hk & Hin').
      rewrite (dict_get_In k k' v b); auto.
      * by apply bool_decide_eq_true.
      * apply (keys_in_In _ _ _ HPa Hin).
      * apply keq_sym; auto.
        -- apply (keys_in_In _ _ _ HPa Hin).
        -- apply (keys_in_In _ _ _ HPb Hin').
Qed.

Lemma same_content_refl (a : list (K * V)) : keys_in a -> Py.same_content keq a a.
Proof.
  intros HP. split; intros k v Hin; exists k; split; auto;
    apply keq_refl, (keys_in_In _ _ _ HP Hin).
Qed.

Lemma same_content_sym (a b : list (K * V)) : Py.same_content keq a b -> Py.same_content keq b a.
Proof. intros [? ?]; by split. Qed.

Lemma dict_incl_trans (a b c : list (K * V)) :
  keys_in a -> keys_in b -> keys_in c ->
  Py.dict_incl keq a b -> Py.dict_incl keq b c -> Py.dict_incl keq a c.
Proof.
  intros HPa HPb HPc Hab Hbc k v Hin.
  destruct (Hab k v Hin) as (k1 & Hk1 & Hin1).
  destruct (Hbc k1 v Hin1) as (k2 & Hk2 & Hin2).
  exists k2. split; [|done].
  apply (keq_trans k k1 k2); auto.
  - apply (keys_in_In _ _ _ HPa Hin).
  - apply (keys_in_In _ _ _ HPb Hin1).
  - apply (keys_in_In _ _ _ HPc Hin2).
Qed.

Lemma same_content_trans (a b c : list (K * V)) :
  keys_in a -> keys_in b -> keys_in c ->
  Py.same_content keq a b -> Py.same_content keq b c -> Py.same_content keq a c.
Proof.
  intros HPa HPb HPc [Hab Hba] [Hbc Hcb]. split.
  - by apply (dict_incl_trans a b c).
  - by apply (dict_incl_trans c b a).
Qed.

(** Enumeration order is not content. *)
Lemma same_content_Permutation (a b : list (K * V)) :
  keys_in a -> Permutation a b -> Py.same_content keq a b.
Proof.
  intros HP Hperm.
  assert (keys_in b) as HPb by (by rewrite <- Hperm).
  split; intros k v Hin; exists k; split.
  - apply keq_refl, (keys_in_In _ _ _ HP Hin).
  - by apply (Permutation_in _ Hperm).
  - apply keq_refl, (keys_in_In _ _ _ HPb Hin).
  - by apply (Permutation_in _ (Permutation_sym Hperm)).
Qed.

(** A content hash built by folding a symmetric operation over the entries
    cannot see the enumeration order. *)
Lemma foldr_xor_middle {A : Type} (f : A -> Z) (l1 : list A) (x : A)
  (l2 : list A) :
  foldr (fun t acc => Z.lxor (f t) acc) 0 (l1 ++ x :: l2)
  = Z.lxor (f x) (foldr (fun t acc => Z.lxor (f t) acc) 0 (l1 ++ l2)).
Proof.
  induction l1 as [|y l1 IH]; simpl; [done|].
  rewrite IH, <- !Z.lxor_assoc. f_equal. apply Z.lxor_comm.
Qed.

Lemma dict_incl_xor (f : K * V -> Z) :
  (forall k k' v, P k -> P k' -> keq k k' = true -> f (k, v) = f (k', v)) ->
  forall a b : list (K * V),
    keys_in a -> keys_in b ->
    Py.dict_wf keq a = true -> Py.dict_wf keq b = true ->
    length a = length b -> Py.dict_incl keq a b ->
    foldr (fun t acc => Z.lxor (f t) acc) 0 a
    = foldr (fun t acc => Z.lxor (f t) acc) 0 b.
Proof.
  intros Hf a. induction a as [|[k v] a IH]; intros b HPa HPb Hwfa Hwfb Hlen Hincl.
  - by destruct b.
  - destruct (dict_incl_peel k v a b) as (b1 & k' & b2 & -> & Hk & Pk' & Hincl');
      auto.
    rewrite foldr_xor_middle. simpl.
    inversion HPa as [|? ? Pk HPa']; subst; simpl in *.
    rewrite (Hf k k' v) by done. f_equal. apply IH; auto.
    + by apply keys_in_remove in HPb.
    + by apply dict_wf_cons in Hwfa as [_ ?].
    + by apply dict_wf_remove in Hwfb.
    + rewrite length_app in *. simpl in Hlen. lia.
Qed.

End DictFacts.

(** ** Equality of monomial maps and of [NomialData] *)

Section DataEquality.
Context {Dom : Domain} {Rt : Runtime} {Alg : data.Algebra}.

#[local] Abbreviation vec_ok := (fun e : data.HashVector => Py.dict_wf data.VarKey_eq e = true).

Lemma VarKey_eq_refl (a : VarKey) : data.VarKey_eq a a = true.
Proof. by apply bool_decide_eq_true. Qed.

Lemma VarKey_eq_sym (a b : VarKey) :
  data.VarKey_eq a b = true -> data.VarKey_eq b a = true.
Proof.
  unfold data.VarKey_eq. simpl. rewrite !bool_decide_eq_true. congruence.
Qed.

Lemma VarKey_eq_trans (a b c : VarKey) :
  data.VarKey_eq a b = true -> data.VarKey_eq b c = true ->
  data.VarKey_eq a c = true.
Proof.
  unfold data.VarKey_eq. simpl. rewrite !bool_decide_eq_true. congruence.
Qed.

Lemma all_keys_trivially (e : data.HashVector) :
  Forall (fun x : VarKey * Num => (fun _ : VarKey => True) (fst x)) e.
Proof. by apply List.Forall_forall. Qed.

(** Equality of exponent vectors is content equality. *)
Lemma HashVector_eq_content (a b : data.HashVector) :
  vec_ok a -> vec_ok b ->
  data.HashVector_eq a b = true <-> Py.same_content data.VarKey_eq a b.
Proof.
  intros Ha Hb. unfold data.HashVector_eq, data.Num_eq.
  apply (dict_eq_same_content data.VarKey_eq (fun _ => True));
    auto using VarKey_eq_sym, all_keys_trivially.
  intros. eapply VarKey_eq_trans; eauto.
Qed.

Lemma HashVector_eq_refl (a : data.HashVector) :
  vec_ok a -> data.HashVector_eq a a = true.
Proof.
  intros Ha. apply HashVector_eq_content; auto.
  apply (same_content_refl data.VarKey_eq (fun _ => True));
    auto using VarKey_eq_refl, all_keys_trivially.
Qed.

Lemma HashVector_eq_sym (a b : data.HashVector) :
  vec_ok a -> vec_ok b ->
  data.HashVector_eq a b = true -> data.HashVector_eq b a = true.
Proof.
  intros Ha Hb H. apply HashVector_eq_content; auto.
  apply same_content_sym. by apply HashVector_eq_content.
Qed.

Lemma HashVector_eq_trans (a b c : data.HashVector) :
  vec_ok a -> vec_ok b -> vec_ok c ->
  data.HashVector_eq a b = true -> data.HashVector_eq b c = true ->
  data.HashVector_eq a c = true.
Proof.
  intros Ha Hb Hc Hab Hbc. apply HashVector_eq_content; auto.
  apply (same_content_trans data.VarKey_eq (fun _ => True)) with (b := b);
    auto using all_keys_trivially.
  - intros. eapply VarKey_eq_trans; eauto.
  - by apply HashVector_eq_content.
  - by apply HashVector_eq_content.
Qed.

Lemma terms_wf_spec (ts : list (data.HashVector * Num)) :
  data.terms_wf ts = true <->
  Forall (fun t : data.HashVector * Num => vec_ok (fst t)) ts
  /\ Py.dict_wf data.HashVector_eq ts = true.
Proof.
  unfold data.terms_wf. rewrite andb_true_iff, forallb_forall, List.Forall_forall.
  tauto.
Qed.

(** Equality of monomial maps is content equality. *)
Lemma NomialMap_eq_same_terms (a b : data.NomialMap) :
  data.map_wf a = true -> data.map_wf b = true ->
  data.NomialMap_eq a b = true <-> data.same_terms a b.
Proof.
  unfold data.map_wf. rewrite !terms_wf_spec. intros [Pa Wa] [Pb Wb].
  unfold data.NomialMap_eq, data.same_terms, data.Num_eq.
  apply (dict_eq_same_content data.HashVector_eq vec_ok);
    auto using HashVector_eq_sym.
  intros x y z Hx Hy Hz. by apply HashVector_eq_trans.
Qed.

Lemma NomialMap_eq_Permutation (a b : data.NomialMap) :
  data.map_wf a = true -> data.map_wf b = true ->
  Permutation (data.terms a) (data.terms b) -> data.NomialMap_eq a b = true.
Proof.
  intros Wa Wb Hperm. apply NomialMap_eq_same_terms; auto.
  apply terms_wf_spec in Wa as [Pa _].
  apply (same_content_Permutation data.HashVector_eq vec_ok);
    auto using HashVector_eq_refl.
Qed.

Lemma NomialData_eq_spec (a b : data.NomialData) :
  data.__eq__ a b = true <->
  data.NomialMap_eq (data.hmap a) (data.hmap b) = true
  /\ data.units a = data.units b.
Proof.
  unfold data.__eq__, data.NomialMap_ne.
  destruct (data.NomialMap_eq (data.hmap a) (data.hmap b)); simpl.
  - destruct (bool_decide_reflect (data.units a = data.units b)); simpl;
      intuition congruence.
  - intuition congruence.
Qed.

(** C4. Two [NomialData] objects compare equal exactly when their maps hold
    the same terms with the same coefficients and their units are identical;
    in particular two objects whose maps enumerate the same terms in
    different orders, with the same unit, compare equal. *)
Theorem C4_eq_is_content_equality (a b : data.NomialData) :
  data.map_wf (data.hmap a) = true -> data.map_wf (data.hmap b) = true ->
  (data.__eq__ a b = true <->
   data.same_terms (data.hmap a) (data.hmap b) /\ data.units a = data.units b)
  /\ (Permutation (data.terms (data.hmap a)) (data.terms (data.hmap b)) ->
      data.units a = data.units b -> data.__eq__ a b = true).
Proof.
  intros Wa Wb. split.
  - rewrite NomialData_eq_spec, NomialMap_eq_same_terms by done. reflexivity.
  - intros Hperm Hu. apply NomialData_eq_spec. split; [|done].
    by apply NomialMap_eq_Permutation.
Qed.

End DataEquality.

(** ** The memoised hash *)

Section DataHash.
Context {Dom : Domain} {Rt : Runtime} {Alg : data.Algebra}.

Lemma varkeys_frame (d : data.NomialData) :
  data.hmap (fst (data.varkeys d)) = data.hmap d
  /\ data.vks (fst (data.varkeys d)) = data.vks d
  /\ data.units (fst (data.varkeys d)) = data.units d
  /\ data.any_nonpositive_cs (fst (data.varkeys d)) = data.any_nonpositive_cs d
  /\ data._hashvalue (fst (data.varkeys d)) = data._hashvalue d
  /\ data._varlocs (fst (data.varkeys d)) = data._varlocs d
  /\ data._exps (fst (data.varkeys d)) = data._exps d
  /\ data._cs (fst (data.varkeys d)) = data._cs d
  /\ data._values (fst (data.varkeys d)) = data._values d.
Proof. unfold data.varkeys. by destruct (data._varkeys d). Qed.

Lemma diff_receiver (d : data.NomialData) (var : Value) :
  fst (data.diff d var) = fst (data.varkeys d).
Proof. unfold data.diff. by destruct (data.varkeys d). Qed.

(** Every reachable object has a sound hash cache. *)
Lemma reachable_cache_ok (d : data.NomialData) :
  data.reachable d -> data.cache_ok d.
Proof.
  unfold data.cache_ok.
  induction 1 as [m|d _ [IHu IHh]|d _ [IHu IHh]|d _ [IHu IHh]|d _ [IHu IHh]
                 |d _ [IHu IHh]|d _ [IHu IHh]|d _ [IHu IHh]|d v _ [IHu IHh]].
  - unfold data.__init__, data._reset. simpl. split; [done|left; done].
  - unfold data._reset. simpl. split; [done|left; done].
  - unfold data.exps. by destruct (data._exps d).
  - unfold data.varlocs, data.exps.
    destruct (data._varlocs d); [done|]. by destruct (data._exps d).
  - unfold data.cs. by destruct (data._cs d).
  - unfold data.__hash__. destruct (data._hashvalue d) eqn:E; simpl.
    + by rewrite E.
    + split; [done|right; done].
  - unfold data.varkeys. by destruct (data._varkeys d).
  - unfold data.values. by destruct (data._values d).
  - rewrite diff_receiver. unfold data.varkeys. by destruct (data._varkeys d).
Qed.

Lemma hash_value (d : data.NomialData) :
  data.cache_ok d -> snd (data.__hash__ d) = data.content_hash (data.hmap d).
Proof.
  intros [_ [H|H]]; unfold data.__hash__; rewrite H; reflexivity.
Qed.

Lemma hash_memoised (d : data.NomialData) :
  data._hashvalue (fst (data.__hash__ d)) = Some (snd (data.__hash__ d))
  /\ data.__hash__ (fst (data.__hash__ d))
     = (fst (data.__hash__ d), snd (data.__hash__ d)).
Proof.
  unfold data.__hash__. destruct (data._hashvalue d) eqn:E; simpl.
  - by rewrite E.
  - done.
Qed.

(** C5. Equal [NomialData] objects hash alike.  The hash combines the hash
    of the map's content with the hash of the unit's string, does not depend
    on the order in which the terms were put into the map, is stored on the
    first call and returned unchanged by every later call. *)
Theorem C5_hash_agrees_with_eq (a b : data.NomialData) :
  data.hash_is_content_pure ->
  data.reachable a -> data.reachable b ->
  data.map_wf (data.hmap a) = true -> data.map_wf (data.hmap b) = true ->
  (data.__eq__ a b = true -> snd (data.__hash__ a) = snd (data.__hash__ b))
  /\ snd (data.__hash__ a)
     = hash_int (data.NomialMap_hash (data.terms (data.hmap a))
                 + hash_str (data.str_units (data.map_units (data.hmap a))))
  /\ (Permutation (data.terms (data.hmap a)) (data.terms (data.hmap b)) ->
      data.units a = data.units b ->
      snd (data.__hash__ a) = snd (data.__hash__ b))
  /\ data._hashvalue (fst (data.__hash__ a)) = Some (snd (data.__hash__ a))
  /\ data.__hash__ (fst (data.__hash__ a))
     = (fst (data.__hash__ a), snd (data.__hash__ a)).
Proof.
  intros Hpure Ra Rb Wa Wb.
  pose proof (reachable_cache_ok a Ra) as Ca.
  pose proof (reachable_cache_ok b Rb) as Cb.
  assert (Heq : data.NomialMap_eq (data.hmap a) (data.hmap b) = true ->
                data.units a = data.units b ->
                snd (data.__hash__ a) = snd (data.__hash__ b)).
  { intros Hm Hu. rewrite !hash_value by done.
    destruct Ca as [Ua _], Cb as [Ub _]. unfold data.content_hash.
    rewrite <- Ua, <- Ub, Hu. f_equal. f_equal. by apply Hpure. }
  repeat split.
  - intros H. apply NomialData_eq_spec in H as [Hm Hu]. auto.
  - by rewrite hash_value.
  - intros Hperm Hu. apply Heq; [|done]. by apply NomialMap_eq_Permutation.
  - apply hash_memoised.
  - apply hash_memoised.
Qed.

End DataHash.

(** ** Differentiation *)

Section DataDiff.
Context {Dom : Domain} {Rt : Runtime} {Alg : data.Algebra}.

(** The keys a variable reference resolves to in the key set of [d]. *)
#[local] Abbreviation resolved d var :=
  (data.KeySet_getitem (snd (data.varkeys d)) var).

(** The constant zero: one term, no exponents, coefficient [0], no unit. *)
#[local] Abbreviation zero_constant :=
  {| data.terms := [([], num_zero)]; data.map_units := None |}.

Lemma diff_result (d : data.NomialData) (var : Value) :
  snd (data.diff d var)
  = if (1 <? length (resolved d var))%nat then
      listing ← data.str_key_list (resolved d var);
      Raise (ValueError ("multiple variables " +:+ listing
                         +:+ " found for key " +:+ varkey.py_str var))
    else match resolved d var with
         | [] => Ok (data.__init__ zero_constant)
         | var1 :: _ => Ok (data.__init__ (data.NomialMap_diff (data.hmap d) var1))
         end.
Proof.
  unfold data.diff. destruct (data.varkeys d) as [d1 ks] eqn:E. simpl.
  assert (data.hmap d1 = data.hmap d) as Hh.
  { pose proof (varkeys_frame d) as F. rewrite E in F. simpl in F. tauto. }
  reflexivity.
Qed.

(** C1. Differentiating with respect to a reference that resolves to no key
    of the receiver does not raise: the result is a newly built [NomialData]
    over the zero constant, whose map has the single term with the empty
    exponent vector and coefficient zero, and no unit. *)
Theorem C1_diff_absent_variable (d : data.NomialData) (var : Value) :
  resolved d var = [] ->
  exists r : data.NomialData,
    snd (data.diff d var) = Ok r
    /\ r = data.__init__ zero_constant
    /\ data.terms (data.hmap r) = [([], num_zero)]
    /\ data.map_units (data.hmap r) = None
    /\ data.units r = None
    /\ data.vks r = [].
Proof.
  intros Hres. exists (data.__init__ zero_constant).
  rewrite diff_result, Hres. simpl. repeat split; reflexivity.
Qed.

(** C2 (as amended). [diff] raises exactly when the reference resolves to
    more than one key of the receiver; the exception is then a [ValueError]
    whose message reads "multiple variables <the matching keys> found for key
    <the reference>".  With one match the result is the derivative with
    respect to that key, with none it is the zero constant. *)
Theorem C2_diff_raises_iff_ambiguous (d : data.NomialData) (var : Value) :
  (Py.raises (snd (data.diff d var)) = true <-> (1 < length (resolved d var))%nat)
  /\ (forall listing : string,
        (1 < length (resolved d var))%nat ->
        data.str_key_list (resolved d var) = Ok listing ->
        snd (data.diff d var)
        = Raise (ValueError ("multiple variables " +:+ listing
                             +:+ " found for key " +:+ varkey.py_str var)))
  /\ (forall k : VarKey,
        resolved d var = [k] ->
        snd (data.diff d var)
        = Ok (data.__init__ (data.NomialMap_diff (data.hmap d) k)))
  /\ (resolved d var = [] ->
      snd (data.diff d var) = Ok (data.__init__ zero_constant)).
Proof.
  rewrite diff_result. repeat split.
  - destruct (1 <? length (resolved d var))%nat eqn:E.
    + intros _. by apply Nat.ltb_lt.
    + by destruct (resolved d var).
  - intros Hlen. apply Nat.ltb_lt in Hlen. rewrite Hlen.
    by destruct (data.str_key_list (resolved d var)).
  - intros listing Hlen Hl. apply Nat.ltb_lt in Hlen. by rewrite Hlen, Hl.
  - intros k ->. reflexivity.
  - intros ->. reflexivity.
Qed.

(** C9 (as amended). [diff] changes nothing of the receiver but the memo of
    its key set: the map, [vks], the units, the positivity flag and the memos
    of the hash, of [varlocs], [exps], [cs] and [values] are as before the
    call; [_varkeys] holds the key set afterwards, which it already did if
    the key set had been read before, and then the receiver is wholly
    unchanged.  A result, when there is one, is a newly built object with
    nothing memoised. *)
Theorem C9_diff_frame (d : data.NomialData) (var : Value) :
  data.hmap (fst (data.diff d var)) = data.hmap d
  /\ data.vks (fst (data.diff d var)) = data.vks d
  /\ data.units (fst (data.diff d var)) = data.units d
  /\ data.any_nonpositive_cs (fst (data.diff d var)) = data.any_nonpositive_cs d
  /\ data._hashvalue (fst (data.diff d var)) = data._hashvalue d
  /\ data._varlocs (fst (data.diff d var)) = data._varlocs d
  /\ data._exps (fst (data.diff d var)) = data._exps d
  /\ data._cs (fst (data.diff d var)) = data._cs d
  /\ data._values (fst (data.diff d var)) = data._values d
  /\ data._varkeys (fst (data.diff d var))
     = Some (default (data.vks d) (data._varkeys d))
  /\ (is_Some (data._varkeys d) -> fst (data.diff d var) = d)
  /\ (forall r : data.NomialData,
        snd (data.diff d var) = Ok r ->
        r = data.__init__ (data.hmap r)
        /\ data._hashvalue r = None /\ data._varlocs r = None
        /\ data._exps r = None /\ data._cs r = None
        /\ data._varkeys r = None /\ data._values r = None).
Proof.
  rewrite diff_receiver, diff_result.
  pose proof (varkeys_frame d) as (F1 & F2 & F3 & F4 & F5 & F6 & F7 & F8 & F9).
  repeat (split; [assumption|]).
  split; [|split].
  - unfold data.varkeys. destruct (data._varkeys d) eqn:E; simpl; [|done].
    by rewrite E.
  - intros [ks E]. unfold data.varkeys. by rewrite E.
  - intros r Hr.
    assert (exists m, r = data.__init__ m) as [m ->].
    { destruct (1 <? length (resolved d var))%nat.
      - destruct (data.str_key_list (resolved d var)); discriminate.
      - destruct (resolved d var); injection Hr as <-; eauto. }
    repeat split; reflexivity.
Qed.

End DataDiff.

(** ** Keys *)

Section VarKeyFacts.
Context {Dom : Domain} {Rt : Runtime}.

#[local] Ltac break_match_in H :=
  match type of H with
  | context [match ?x with _ => _ end] => destruct x eqn:?
  end.

#[local] Ltac run_M :=
  unfold mbind, varkey.M_bind, mret, varkey.M_ret, varkey.lift in *.


Lemma append_inj_length (s1 s2 t1 t2 : string) :
  String.length s1 = String.length s2 ->
  s1 +:+ t1 = s2 +:+ t2 -> s1 = s2 /\ t1 = t2.
Proof.
  revert s2. induction s1 as [|a s1 IH]; intros [|b s2]; simpl;
    try discriminate; auto.
  intros [= Hlen] [= -> H]. destruct (IH s2 Hlen H) as [-> ->]. auto.
Qed.

Lemma append_inj_head (s t1 t2 : string) : s +:+ t1 = s +:+ t2 -> t1 = t2.
Proof. intros H. by apply (append_inj_length s s) in H as [_ ?]. Qed.

Lemma length_append (s t : string) :
  String.length (s +:+ t) = (String.length s + String.length t)%nat.
Proof. induction s as [|a s IH]; simpl; [done|by rewrite IH]. Qed.

Lemma append_inj_tail (s1 s2 t : string) : s1 +:+ t = s2 +:+ t -> s1 = s2.
Proof.
  intros H. apply (append_inj_length s1 s2 t t); [|done].
  apply (f_equal String.length) in H. rewrite !length_append in H. lia.
Qed.

Lemma append_nil_r (s : string) : s +:+ EmptyString = s.
Proof.
  induction s as [|a s IH]; [done|].
  change (String a (s +:+ EmptyString) = String a s). by rewrite IH.
Qed.

Lemma append_assoc (a b c : string) : (a +:+ b) +:+ c = a +:+ b +:+ c.
Proof.
  induction a as [|x a IH]; [done|].
  change (String x ((a +:+ b) +:+ c) = String x (a +:+ b +:+ c)). by rewrite IH.
Qed.

Lemma str_without_closed_form (d : gmap string Value) (excluded : list string)
  (nm : string) :
  d !! "name" = Some (VStr nm) ->
  varkey.str_without d excluded
  = Ok (nm
        +:+ (if varkey.py_truthy (varkey.__getattr__ d "lineage")
                && negb (bool_decide ("lineage" ∈ excluded))
             then "_" +:+ lineagestr d (negb (bool_decide ("modelnums" ∈ excluded)))
             else EmptyString)
        +:+ (if varkey.py_truthy (varkey.__getattr__ d "idx")
                && negb (bool_decide ("idx" ∈ excluded))
             then "_" +:+ varkey.py_str (varkey.__getattr__ d "idx")
             else EmptyString)).
Proof.
  intros Hn. unfold varkey.str_without, varkey.__getattr__ at 1. rewrite Hn.
  simpl. f_equal.
  pose proof append_nil_r as Hnil.
  pose proof append_assoc as Hassoc.
  destruct (varkey.py_truthy (varkey.__getattr__ d "lineage")
            && negb (bool_decide ("lineage" ∈ excluded)));
    destruct (varkey.py_truthy (varkey.__getattr__ d "idx")
              && negb (bool_decide ("idx" ∈ excluded)));
    rewrite ?Hnil, ?Hassoc; reflexivity.
Qed.



(** C10 (as amended). Reading an attribute that is neither set on the key
    nor defined by its class (or inherited by it) never raises: the answer is
    the entry of the attribute bag under that name, and [None] when the bag
    has none. *)
Theorem C10_getattr_falls_back_to_descr (self : VarKey) (attr : string) :
  attr <> "models" ->
  Py.dict_get String.eqb attr (varkey.instance_dict self) = None ->
  attr ∉ varkey.class_dict ->
  inherited_attr attr = false ->
  varkey.getattr self attr = Ok (varkey.AValue (default VNone (descr self !! attr)))
  /\ (forall v : Value, descr self !! attr = Some v ->
      varkey.getattr self attr = Ok (varkey.AValue v))
  /\ (descr self !! attr = None ->
      varkey.getattr self attr = Ok (varkey.AValue VNone)).
Proof.
  intros Hm Hi Hc Hinh.
  assert (varkey.getattr self attr
          = Ok (varkey.AValue (default VNone (descr self !! attr)))) as H.
  { unfold varkey.getattr. rewrite bool_decide_eq_false_2 by done.
    rewrite Hi, bool_decide_eq_false_2 by done. by rewrite Hinh. }
  split; [exact H|]. split.
  - intros v Hv. by rewrite H, Hv.
  - intros Hn. by rewrite H, Hn.
Qed.

(** *** Anonymous keys and the creation counter *)

Lemma str_int_inj (m n : Z) : Py.str_int m = Py.str_int n -> m = n.
Proof.
  unfold Py.str_int. intros H. apply to_int_inj.
  apply (f_equal NilEmpty.int_of_string) in H.
  rewrite !NilEmpty.isi in H. by injection H.
Qed.

Lemma fbox_inj (m n : Z) : varkey.fbox m = varkey.fbox n -> m = n.
Proof.
  unfold varkey.fbox. intros H. apply append_inj_head in H.
  apply append_inj_tail in H. by apply str_int_inj.
Qed.

Lemma fresh_descr_counter (name : Value) (kwargs : gmap string Value)
  (c : varkey.Count) :
  fst (varkey.fresh_descr name kwargs c) = if varkey.py_truthy name then c else c + 1.
Proof.
  unfold varkey.fresh_descr, varkey.unique_id, varkey.Count_next. run_M.
  destruct (varkey.py_truthy name); simpl;
    repeat match goal with
           | |- context [match ?x with _ => _ end] => destruct x
           end; reflexivity.
Qed.

Lemma fresh_descr_name (name : Value) (kwargs : gmap string Value)
  (c c1 : varkey.Count) (d : gmap string Value) :
  varkey.fresh_descr name kwargs c = (c1, Ok d) ->
  d !! "name" = Some (VStr (if varkey.py_truthy name then varkey.py_str name
                            else varkey.fbox (c + 1))).
Proof.
  unfold varkey.fresh_descr, varkey.unique_id, varkey.Count_next. run_M.
  destruct (varkey.py_truthy name); simpl; intros H;
    repeat (break_match_in H; try discriminate);
    injection H as <- <-; by simplify_map_eq.
Qed.

Lemma init_descr_counter (name : Value) (kwargs : gmap string Value)
  (c : varkey.Count) :
  c <= fst (varkey.init_descr name kwargs c).
Proof.
  unfold varkey.init_descr.
  destruct name; try (rewrite fresh_descr_counter; simpl; lia);
    try (rewrite fresh_descr_counter;
         match goal with |- context [if ?b then _ else _] => destruct b end;
         lia).
  run_M. simpl. lia.
Qed.

(** The counter never goes back, whatever the construction does. *)
Lemma init_counter_mono (fuel : nat) : forall (name : Value)
  (kwargs : gmap string Value) (c : varkey.Count),
  c <= fst (varkey.__init__fuel fuel name kwargs c).
Proof.
  induction fuel as [|fuel IH]; intros name kwargs c; simpl; run_M; [simpl; lia|].
  pose proof (init_descr_counter name kwargs c) as H0.
  destruct (varkey.init_descr name kwargs c) as [c1 [d|e]]; simpl in *; [|lia].
  destruct (varkey.str_without d ["modelnums"]) as [cl|e]; simpl; [|lia].
  destruct (varkey.make_eqstr d cl); simpl; [|lia].
  destruct (d !! "idx"); simpl; [|lia].
  destruct (d !! "veckey"); simpl.
  - repeat match goal with
           | |- context [match ?x with _ => _ end] => destruct x
           end; simpl; lia.
  - match goal with
    | |- context [varkey.__init__fuel fuel ?n ?kw c1] =>
        pose proof (IH n kw c1) as H1;
        destruct (varkey.__init__fuel fuel n kw c1) as [c2 [vk|e]]
    end; simpl in *; [|lia].
    repeat match goal with
           | |- context [match ?x with _ => _ end] => destruct x
           end; simpl; lia.
Qed.

(** How a successful construction went. *)
Lemma init_inv (fuel : nat) (name : Value) (kwargs : gmap string Value)
  (c c' : varkey.Count) (k : VarKey) :
  varkey.__init__fuel (S fuel) name kwargs c = (c', Ok k) ->
  exists c1 : varkey.Count,
    varkey.init_descr name kwargs c = (c1, Ok (descr k))
    /\ match descr k !! "idx", descr k !! "veckey" with
       | Some _, None =>
           exists vk : VarKey,
             varkey.__init__fuel fuel
               (default VNone (delete "idx" (descr k) !! "name"))
               (delete "name" (delete "idx" (descr k))) c1 = (c', Ok vk)
             /\ veckey_attr k = Some vk
       | _, _ => c' = c1 /\ veckey_attr k = None
       end.
Proof.
  simpl. run_M.
  destruct (varkey.init_descr name kwargs c) as [c1 [d|e]]; [|discriminate].
  destruct (varkey.str_without d ["modelnums"]) as [cl|e]; [|discriminate].
  destruct (varkey.make_eqstr d cl) as [es|e]; [|discriminate].
  intros H. exists c1.
  destruct (d !! "idx") eqn:Ei.
  - destruct (d !! "veckey") eqn:Ev.
    + repeat (break_match_in H; try discriminate);
        injection H as <- <-; simpl; rewrite Ei, Ev; auto.
    + match type of H with
      | context [varkey.__init__fuel fuel ?n ?kw c1] =>
          destruct (varkey.__init__fuel fuel n kw c1) as [c2 [vk|e]] eqn:En
      end; [|discriminate].
      repeat (break_match_in H; try discriminate);
        injection H as <- <-; simpl; rewrite Ei, Ev; eauto.
  - injection H as <- <-. simpl. rewrite Ei. auto.
Qed.

Lemma init1_counter (name : Value) (kwargs : gmap string Value)
  (c : varkey.Count) :
  varkey.py_truthy name = true ->
  fst (varkey.__init__fuel 1 name kwargs c) = c.
Proof.
  intros Ht. simpl. run_M.
  assert (fst (varkey.init_descr name kwargs c) = c) as H0.
  { unfold varkey.init_descr.
    destruct name; try (by rewrite fresh_descr_counter, Ht). reflexivity. }
  destruct (varkey.init_descr name kwargs c) as [c1 [d|e]]; simpl in *; [|done].
  subst c1.
  destruct (varkey.str_without d ["modelnums"]) as [cl|e]; simpl; [|done].
  destruct (varkey.make_eqstr d cl); simpl; [|done].
  destruct (d !! "idx"); simpl; [|done].
  destruct (d !! "veckey"); simpl; [|done].
  repeat match goal with
         | |- context [match ?x with _ => _ end] => destruct x
         end; reflexivity.
Qed.

Lemma init_anonymous (name : Value) (kwargs : gmap string Value)
  (c c' : varkey.Count) (k : VarKey) :
  varkey.py_truthy name = false ->
  varkey.__init__ name kwargs c = (c', Ok k) ->
  descr k !! "name" = Some (VStr (varkey.fbox (c + 1))) /\ c' = c + 1.
Proof.
  intros Hf H. apply init_inv in H as (c1 & Hd & Hrest).
  assert (varkey.init_descr name kwargs c = varkey.fresh_descr name kwargs c) as E.
  { destruct name; try reflexivity. discriminate. }
  rewrite E in Hd.
  pose proof (fresh_descr_counter name kwargs c) as Hc.
  rewrite Hd, Hf in Hc. simpl in Hc. subst c1.
  apply fresh_descr_name in Hd as Hn. rewrite Hf in Hn.
  split; [exact Hn|].
  destruct (descr k !! "idx"); [|tauto].
  destruct (descr k !! "veckey"); [tauto|].
  destruct Hrest as (vk & Hvk & _).
  rewrite lookup_delete_ne, Hn in Hvk by done.
  pose proof (init1_counter (default VNone (Some (VStr (varkey.fbox (c + 1)))))
                (delete "name" (delete "idx" (descr k))) (c + 1) eq_refl) as H1.
  by rewrite Hvk in H1.
Qed.

(** The placeholder of a later anonymous key is made from a larger counter
    value than the counter the run started from. *)
Lemma run_anonymous_bound (calls : list (Value * gmap string Value)) :
  forall (c : varkey.Count) (j : nat) (name : Value)
    (kwargs : gmap string Value) (k : VarKey),
  calls !! j = Some (name, kwargs) ->
  varkey.py_truthy name = false ->
  varkey.run calls c !! j = Some (Ok k) ->
  exists m : Z, c < m /\ descr k !! "name" = Some (VStr (varkey.fbox m)).
Proof.
  induction calls as [|[n0 kw0] calls IH]; intros c j name kwargs k Hj Hf Hr;
    [done|].
  simpl in Hr.
  destruct (varkey.__init__ n0 kw0 c) as [c0 r0] eqn:E0.
  destruct j as [|j]; simpl in *.
  - injection Hj as -> ->. injection Hr as ->.
    apply init_anonymous in E0 as [Hn _]; [|done].
    exists (c + 1). split; [lia|done].
  - destruct (IH c0 j name kwargs k Hj Hf Hr) as (m & Hm & Hn).
    pose proof (init_counter_mono 2 n0 kw0 c) as Hmono.
    change (varkey.__init__fuel 2) with varkey.__init__ in Hmono.
    rewrite E0 in Hmono. simpl in Hmono.
    exists m. split; [lia|done].
Qed.

(** C8. A key built without a name is named by the placeholder made from
    the value the creation counter takes for it, and two such keys built in
    the same run of the program get different names: the counter only grows. *)
Theorem C8_anonymous_names_are_distinct
  (calls : list (Value * gmap string Value)) (c : varkey.Count) :
  (forall (name : Value) (kwargs : gmap string Value) (c0 c1 : varkey.Count)
          (k : VarKey),
     varkey.py_truthy name = false ->
     varkey.__init__ name kwargs c0 = (c1, Ok k) ->
     descr k !! "name" = Some (VStr (varkey.fbox (c0 + 1))) /\ c1 = c0 + 1)
  /\ (forall (name : Value) (kwargs : gmap string Value) (c0 : varkey.Count),
        c0 <= fst (varkey.__init__ name kwargs c0))
  /\ (forall (i j : nat) (ni nj : Value) (kwi kwj : gmap string Value)
             (ki kj : VarKey),
        (i < j)%nat ->
        calls !! i = Some (ni, kwi) -> calls !! j = Some (nj, kwj) ->
        varkey.py_truthy ni = false -> varkey.py_truthy nj = false ->
        varkey.run calls c !! i = Some (Ok ki) ->
        varkey.run calls c !! j = Some (Ok kj) ->
        descr ki !! "name" <> descr kj !! "name").
Proof.
  split; [|split].
  - intros name kwargs c0 c1 k. apply init_anonymous.
  - intros name kwargs c0. apply (init_counter_mono 2).
  - revert c. induction calls as [|[n0 kw0] calls IH];
      intros c i j ni nj kwi kwj ki kj Hij Hi Hj Hfi Hfj Hri Hrj; [done|].
    simpl in Hri, Hrj.
    destruct (varkey.__init__ n0 kw0 c) as [c0 r0] eqn:E0.
    destruct j as [|j]; [lia|]. simpl in Hj, Hrj.
    destruct i as [|i]; simpl in Hi, Hri.
    + injection Hi as -> ->. injection Hri as ->.
      apply init_anonymous in E0 as [Hn ->]; [|done].
      destruct (run_anonymous_bound calls (c + 1) j nj kwj kj Hj Hfj Hrj)
        as (m & Hm & Hnj).
      rewrite Hn, Hnj. intros H.
      assert (varkey.fbox (c + 1) = varkey.fbox m) as Hb by congruence.
      apply fbox_inj in Hb. lia.
    + apply (IH c0 i j ni nj kwi kwj ki kj); auto. lia.
Qed.

(** *** Unit normalisation and the synthesised [veckey] *)

(** The name a fresh construction gives the key. *)
#[local] Abbreviation given_name name c :=
  (if varkey.py_truthy name then varkey.py_str name else varkey.fbox (c + 1)).

Lemma unit_input_insert_name (nm : Value) (kwargs : gmap string Value) :
  varkey.unit_input (<["name" := nm]> kwargs) = varkey.unit_input kwargs.
Proof.
  unfold varkey.unit_input, varkey.__getattr__. by rewrite !lookup_insert_ne.
Qed.

(** A fresh bag is the keyword arguments with the name, the unit and the
    unit representation written over them. *)
Lemma fresh_descr_spec (name : Value) (kwargs : gmap string Value)
  (c c1 : varkey.Count) (d : gmap string Value) :
  varkey.fresh_descr name kwargs c = (c1, Ok d) ->
  c1 = (if varkey.py_truthy name then c else c + 1)
  /\ exists (u : string) (q : Value),
       d = <["unitrepr" := VStr u]>
             (<["units" := q]> (<["name" := VStr (given_name name c)]> kwargs))
       /\ ((varkey.dimensionless (varkey.unit_input kwargs) = true
            /\ u = "-" /\ q = VNone)
           \/ (varkey.dimensionless (varkey.unit_input kwargs) = false
               /\ varkey.unit_input kwargs = VStr u
               /\ exists q' : Units, qty u = Some q' /\ q = VQty q')).
Proof.
  intros H. split.
  { pose proof (fresh_descr_counter name kwargs c) as Hc. by rewrite H in Hc. }
  revert H. unfold varkey.fresh_descr, varkey.unique_id, varkey.Count_next. run_M.
  destruct (varkey.py_truthy name); simpl; rewrite unit_input_insert_name;
    destruct (varkey.dimensionless (varkey.unit_input kwargs)) eqn:Ed;
    try (intros [= <- <-]; exists "-", VNone; split; [reflexivity|left; done]);
    destruct (varkey.unit_input kwargs) as [|u| | | | |] eqn:Eu; try discriminate;
    destruct (qty u) as [q'|] eqn:Eq; try discriminate;
    intros [= <- <-]; exists u, (VQty q'); (split; [reflexivity|right; eauto]).
Qed.

(** Conversely, the two ways a fresh bag comes out. *)
Lemma fresh_descr_dimensionless (name : Value) (kwargs : gmap string Value)
  (c : varkey.Count) :
  varkey.dimensionless (varkey.unit_input kwargs) = true ->
  varkey.fresh_descr name kwargs c
  = (if varkey.py_truthy name then c else c + 1,
     Ok (<["unitrepr" := VStr "-"]>
           (<["units" := VNone]> (<["name" := VStr (given_name name c)]> kwargs)))).
Proof.
  intros Hd. unfold varkey.fresh_descr, varkey.unique_id, varkey.Count_next. run_M.
  destruct (varkey.py_truthy name); simpl; by rewrite unit_input_insert_name, Hd.
Qed.

Lemma fresh_descr_with_units (name : Value) (kwargs : gmap string Value)
  (c : varkey.Count) (u : string) (q : Units) :
  varkey.dimensionless (VStr u) = false ->
  varkey.unit_input kwargs = VStr u -> qty u = Some q ->
  varkey.fresh_descr name kwargs c
  = (if varkey.py_truthy name then c else c + 1,
     Ok (<["unitrepr" := VStr u]>
           (<["units" := VQty q]> (<["name" := VStr (given_name name c)]> kwargs)))).
Proof.
  intros Hd Hu Hq. unfold varkey.fresh_descr, varkey.unique_id, varkey.Count_next.
  run_M.
  destruct (varkey.py_truthy name); simpl;
    by rewrite unit_input_insert_name, Hu, Hd, Hq.
Qed.

(** What follows the making of the bag depends on the bag only, and a bag
    without [idx] ends the construction at once, whatever the fuel. *)
Lemma init_no_idx (f1 f2 : nat) (n1 n2 : Value) (kw1 kw2 : gmap string Value)
  (c1 c1' c2 c2' : varkey.Count) (d : gmap string Value) :
  varkey.init_descr n1 kw1 c1 = (c1', Ok d) ->
  varkey.init_descr n2 kw2 c2 = (c2', Ok d) ->
  d !! "idx" = None ->
  fst (varkey.__init__fuel (S f1) n1 kw1 c1) = c1'
  /\ snd (varkey.__init__fuel (S f1) n1 kw1 c1)
     = snd (varkey.__init__fuel (S f2) n2 kw2 c2)
  /\ forall k : VarKey,
       snd (varkey.__init__fuel (S f1) n1 kw1 c1) = Ok k ->
       descr k = d /\ veckey_attr k = None.
Proof.
  intros H1 H2 Hi. simpl. run_M. rewrite H1, H2.
  destruct (varkey.str_without d ["modelnums"]) as [cl|e]; simpl; [|done].
  destruct (varkey.make_eqstr d cl) as [es|e]; simpl; [|done].
  rewrite Hi. simpl. split; [done|]. split; [done|]. by intros k [= <-].
Qed.

Lemma init_ext (fuel : nat) (n1 n2 : Value) (kw1 kw2 : gmap string Value)
  (c1 c2 : varkey.Count) :
  varkey.init_descr n1 kw1 c1 = varkey.init_descr n2 kw2 c2 ->
  varkey.__init__fuel (S fuel) n1 kw1 c1 = varkey.__init__fuel (S fuel) n2 kw2 c2.
Proof. intros H. simpl. run_M. by rewrite H. Qed.

Lemma init_descr_fresh (name : Value) (kwargs : gmap string Value) :
  (forall o : VarKey, name <> VKey o) ->
  varkey.init_descr name kwargs = varkey.fresh_descr name kwargs.
Proof. intros Hn. destruct name; try reflexivity. by destruct (Hn k). Qed.

Lemma fresh_descr_named (name : Value) (kwargs : gmap string Value)
  (c : varkey.Count) :
  varkey.py_truthy name = true ->
  varkey.fresh_descr name kwargs c = (c, snd (varkey.fresh_descr name kwargs 0)).
Proof.
  intros Ht. unfold varkey.fresh_descr. run_M. rewrite Ht. simpl.
  repeat match goal with
         | |- context [match ?x with _ => _ end] => destruct x
         end; reflexivity.
Qed.

(** With a name supplied the construction neither reads nor advances the
    counter. *)
Lemma init_named_counter_free (fuel : nat) : forall (name : Value)
  (kwargs : gmap string Value) (c : varkey.Count),
  varkey.py_truthy name = true ->
  (forall o : VarKey, name <> VKey o) ->
  varkey.py_str name <> EmptyString ->
  varkey.__init__fuel fuel name kwargs c
  = (c, snd (varkey.__init__fuel fuel name kwargs 0)).
Proof.
  induction fuel as [|fuel IH]; intros name kwargs c Ht Hk Hs; [reflexivity|].
  simpl. run_M. rewrite init_descr_fresh by done.
  rewrite (fresh_descr_named name kwargs c), (fresh_descr_named name kwargs 0)
    by done.
  destruct (varkey.fresh_descr name kwargs 0) as [c0 [d|e]] eqn:Ed; simpl; [|done].
  apply fresh_descr_name in Ed as Hn. rewrite Ht in Hn.
  destruct (varkey.str_without d ["modelnums"]) as [cl|e]; simpl; [|done].
  destruct (varkey.make_eqstr d cl) as [es|e]; simpl; [|done].
  destruct (d !! "idx"); simpl; [|done].
  destruct (d !! "veckey"); simpl.
  - repeat match goal with
           | |- context [match ?x with _ => _ end] => destruct x
           end; reflexivity.
  - rewrite lookup_delete_ne, Hn by done. simpl default.
    assert (varkey.py_truthy (VStr (varkey.py_str name)) = true) as Ht'.
    { simpl. by rewrite bool_decide_eq_false_2. }
    rewrite (IH (VStr (varkey.py_str name)) _ c),
            (IH (VStr (varkey.py_str name)) _ 0) by done.
    destruct (snd (varkey.__init__fuel fuel (VStr (varkey.py_str name))
                     (delete "name" (delete "idx" d)) 0)); simpl; [|done].
    repeat match goal with
           | |- context [match ?x with _ => _ end] => destruct x
           end; reflexivity.
Qed.

Lemma dimensionless_bags_agree (nm : string) (kw1 kw2 : gmap string Value) :
  (forall a : string, a <> "units" -> a <> "unitrepr" -> kw1 !! a = kw2 !! a) ->
  <["unitrepr" := VStr "-"]> (<["units" := VNone]> (<["name" := VStr nm]> kw1))
  = <["unitrepr" := VStr "-"]> (<["units" := VNone]> (<["name" := VStr nm]> kw2)).
Proof.
  intros H. apply map_eq. intros a.
  destruct (decide (a = "unitrepr")) as [->|]; [by rewrite !lookup_insert_eq|].
  rewrite !(lookup_insert_ne _ "unitrepr") by done.
  destruct (decide (a = "units")) as [->|]; [by rewrite !lookup_insert_eq|].
  rewrite !(lookup_insert_ne _ "units") by done.
  destruct (decide (a = "name")) as [->|]; [by rewrite !lookup_insert_eq|].
  rewrite !(lookup_insert_ne _ "name") by done. by apply H.
Qed.

(** C6 (as amended). When the name is not itself a key and the unit-like
    input of a construction is the empty string,
    ["-"] or [None], the key stores [None] as its unit and ["-"] as its unit
    representation.  Two constructions that differ in nothing but which of
    these inputs they were given build the same key; with a name supplied
    this holds whatever the counter is, and the two keys are equal and hash
    alike. *)
Theorem C6_dimensionless_inputs_agree (name : Value)
  (kw1 kw2 : gmap string Value) :
  (forall o : VarKey, name <> VKey o) ->
  varkey.dimensionless (varkey.unit_input kw1) = true ->
  varkey.dimensionless (varkey.unit_input kw2) = true ->
  (forall a : string, a <> "units" -> a <> "unitrepr" -> kw1 !! a = kw2 !! a) ->
  (forall (c c' : varkey.Count) (k : VarKey),
     varkey.__init__ name kw1 c = (c', Ok k) ->
     descr k !! "units" = Some VNone
     /\ descr k !! "unitrepr" = Some (VStr "-")
     /\ varkey.unitrepr_str k = "-")
  /\ (forall c : varkey.Count,
        varkey.__init__ name kw1 c = varkey.__init__ name kw2 c)
  /\ (varkey.py_truthy name = true -> varkey.py_str name <> EmptyString ->
      forall (c1 c1' c2 c2' : varkey.Count) (k1 k2 : VarKey),
        varkey.__init__ name kw1 c1 = (c1', Ok k1) ->
        varkey.__init__ name kw2 c2 = (c2', Ok k2) ->
        k1 = k2
        /\ varkey.__eq__ k1 (VKey k2) = true
        /\ varkey.__hash__ k1 = varkey.__hash__ k2).
Proof.
  intros Hk Hd1 Hd2 Hagree.
  assert (Hsame : forall c, varkey.__init__ name kw1 c = varkey.__init__ name kw2 c).
  { intros c. apply init_ext. rewrite !init_descr_fresh by done.
    rewrite !fresh_descr_dimensionless by done.
    by rewrite (dimensionless_bags_agree _ kw1 kw2). }
  split; [|split; [exact Hsame|]].
  - intros c c' k H. apply init_inv in H as (c1 & H & _).
    rewrite init_descr_fresh, fresh_descr_dimensionless in H by done.
    injection H as _ H. unfold varkey.unitrepr_str, varkey.__getattr__.
    rewrite <- H. by simplify_map_eq.
  - intros Ht Hs c1 c1' c2 c2' k1 k2 H1 H2.
    rewrite Hsame in H1. unfold varkey.__init__ in H1, H2.
    rewrite init_named_counter_free in H1, H2 by done.
    assert (k1 = k2) as -> by congruence.
    split; [done|]. split; [|done]. simpl. by apply bool_decide_eq_true.
Qed.

#[local] Ltac bag_eq :=
  apply map_eq; intros ?;
  repeat (rewrite lookup_insert || rewrite lookup_delete);
  repeat case_decide; simplify_eq; try done.

Lemma dimensionless_nonempty (u : string) :
  varkey.dimensionless (VStr u) = false -> u <> EmptyString.
Proof. intros H ->. discriminate. Qed.

Lemma unit_input_delete_idx (kwargs : gmap string Value) :
  varkey.unit_input (delete "idx" kwargs) = varkey.unit_input kwargs.
Proof.
  unfold varkey.unit_input, varkey.__getattr__. by rewrite !lookup_delete_ne.
Qed.

(** Normalising the units of a bag that is already normalised changes
    nothing, so the bag of the synthesised [veckey] is the component's bag
    without [idx], and so is the bag built from the component's own
    arguments without [idx]. *)
Lemma veckey_bags (name : Value) (kwargs : gmap string Value)
  (c c1 : varkey.Count) (d : gmap string Value) :
  varkey.fresh_descr name kwargs c = (c1, Ok d) ->
  given_name name c <> EmptyString ->
  (forall c0 : varkey.Count,
     varkey.fresh_descr (VStr (given_name name c))
       (delete "name" (delete "idx" d)) c0 = (c0, Ok (delete "idx" d)))
  /\ (forall c0 : varkey.Count,
        varkey.fresh_descr (VStr (given_name name c)) (delete "idx" kwargs) c0
        = (c0, Ok (delete "idx" d)))
  /\ (varkey.py_truthy name = true ->
      forall c0 : varkey.Count,
        varkey.fresh_descr name (delete "idx" kwargs) c0
        = (c0, Ok (delete "idx" d))).
Proof.
  intros H Hnm.
  apply fresh_descr_spec in H as (_ & u & q & -> & Hcase).
  set (nm := given_name name c) in *.
  assert (Htn : varkey.py_truthy (VStr nm) = true).
  { simpl. by rewrite bool_decide_eq_false_2. }
  destruct Hcase as [(Hd & -> & ->)|(Hd & Hu & q' & Hq & ->)].
  - split; [|split].
    + intros c0. rewrite fresh_descr_dimensionless.
      * rewrite Htn. simpl varkey.py_str. f_equal. f_equal. bag_eq.
      * unfold varkey.unit_input, varkey.__getattr__, varkey.py_or.
        by simplify_map_eq.
    + intros c0. rewrite fresh_descr_dimensionless
        by (by rewrite unit_input_delete_idx).
      rewrite Htn. simpl varkey.py_str. f_equal. f_equal. bag_eq.
    + intros Ht c0. rewrite fresh_descr_dimensionless
        by (by rewrite unit_input_delete_idx).
      subst nm. rewrite Ht. f_equal. f_equal. bag_eq.
  - assert (Hdu : varkey.dimensionless (VStr u) = false) by (by rewrite <- Hu).
    pose proof (dimensionless_nonempty u Hdu) as Hne.
    split; [|split].
    + intros c0. rewrite (fresh_descr_with_units _ _ _ u q'); auto.
      * rewrite Htn. simpl varkey.py_str. f_equal. f_equal. bag_eq.
      * unfold varkey.unit_input, varkey.__getattr__, varkey.py_or.
        simplify_map_eq. simpl. by rewrite bool_decide_eq_false_2.
    + intros c0. rewrite (fresh_descr_with_units _ _ _ u q'); auto.
      * rewrite Htn. simpl varkey.py_str. f_equal. f_equal. bag_eq.
      * by rewrite unit_input_delete_idx.
    + intros Ht c0. rewrite (fresh_descr_with_units _ _ _ u q'); auto.
      * subst nm. rewrite Ht. f_equal. f_equal. bag_eq.
      * by rewrite unit_input_delete_idx.
Qed.

Lemma given_name_nonempty (name : Value) (c : varkey.Count) :
  (varkey.py_truthy name = true -> varkey.py_str name <> EmptyString) ->
  given_name name c <> EmptyString.
Proof. intros H. destruct (varkey.py_truthy name); [by apply H|done]. Qed.

(** C7. A key built with an [idx] and no [veckey] gets a [veckey]
    synthesised, once: its bag is the component's bag without [idx], it has
    no [veckey] of its own, and it is the very key a fresh construction from
    the same attributes without [idx] yields. *)
Theorem C7_veckey_is_component_without_idx (name : Value)
  (kwargs : gmap string Value) (i : Value) (c c' : varkey.Count) (k : VarKey) :
  (forall o : VarKey, name <> VKey o) ->
  (varkey.py_truthy name = true -> varkey.py_str name <> EmptyString) ->
  kwargs !! "idx" = Some i ->
  kwargs !! "veckey" = None ->
  varkey.__init__ name kwargs c = (c', Ok k) ->
  exists (vk : VarKey) (nm : string),
    veckey_attr k = Some vk
    /\ varkey.veckey k = VKey vk
    /\ descr k !! "name" = Some (VStr nm)
    /\ descr vk = delete "idx" (descr k)
    /\ veckey_attr vk = None
    /\ c' = (if varkey.py_truthy name then c else c + 1)
    /\ (forall c0 : varkey.Count,
          varkey.__init__ (VStr nm) (delete "name" (delete "idx" (descr k))) c0
          = (c0, Ok vk))
    /\ (forall c0 : varkey.Count,
          varkey.__init__ (VStr nm) (delete "idx" kwargs) c0 = (c0, Ok vk))
    /\ (varkey.py_truthy name = true ->
        forall c0 : varkey.Count,
          varkey.__init__ name (delete "idx" kwargs) c0 = (c0, Ok vk))
    /\ (forall (c0 c1 : varkey.Count) (fresh : VarKey),
          varkey.__init__ (VStr nm) (delete "idx" kwargs) c0 = (c1, Ok fresh) ->
          varkey.__eq__ vk (VKey fresh) = true).
Proof.
  intros Hk Hs Hi Hv H.
  apply init_inv in H as (c1 & Hd & Hrest).
  rewrite init_descr_fresh in Hd by done.
  pose proof (given_name_nonempty name c Hs) as Hnm.
  destruct (veckey_bags name kwargs c c1 (descr k) Hd Hnm) as (B1 & B2 & B3).
  apply fresh_descr_name in Hd as Hn.
  apply fresh_descr_spec in Hd as (Hc1 & u & q & Hshape & _).
  assert (descr k !! "idx" = Some i) as Ei.
  { rewrite Hshape. by simplify_map_eq. }
  assert (descr k !! "veckey" = None) as Ev.
  { rewrite Hshape. by simplify_map_eq. }
  rewrite Ei, Ev in Hrest. destruct Hrest as (vk & Hvk & Hattr).
  rewrite lookup_delete_ne, Hn in Hvk by done. simpl default in Hvk.
  set (nm := given_name name c) in *.
  assert (Hfin : forall (f : nat) (n : Value) (kw : gmap string Value)
                        (c0 : varkey.Count),
            varkey.init_descr n kw c0 = (c0, Ok (delete "idx" (descr k))) ->
            varkey.__init__fuel (S f) n kw c0 = (c0, Ok vk)
            /\ descr vk = delete "idx" (descr k) /\ veckey_attr vk = None
            /\ c' = c1).
  { intros f n kw c0 Hinit.
    destruct (init_no_idx f 0 n (VStr nm) kw (delete "name" (delete "idx" (descr k)))
                c0 c0 c1 c1 (delete "idx" (descr k)))
      as (F1 & F2 & F3); auto.
    - by rewrite init_descr_fresh, B1.
    - by rewrite lookup_delete_eq.
    - rewrite Hvk in F2. cbn [fst snd] in F2.
      destruct (init_no_idx 0 0 (VStr nm) (VStr nm)
                  (delete "name" (delete "idx" (descr k)))
                  (delete "name" (delete "idx" (descr k)))
                  c1 c1 c1 c1 (delete "idx" (descr k)))
        as (G1 & _ & G3); auto;
        try (by rewrite init_descr_fresh, B1);
        try (by rewrite lookup_delete_eq).
      rewrite Hvk in G1, G3. cbn [fst snd] in G1, G3.
      destruct (G3 vk eq_refl) as [? ?].
      repeat split; auto.
      destruct (varkey.__init__fuel (S f) n kw c0) as [x y].
      cbn [fst snd] in F1, F2. by subst. }
  exists vk, nm.
  destruct (Hfin 1%nat (VStr nm) (delete "idx" kwargs) c)
    as (_ & Hdv & Hav & Hc'); [by rewrite init_descr_fresh, B2|].
  split; [done|]. split; [by unfold varkey.veckey; rewrite Hattr|].
  split; [done|]. split; [done|]. split; [done|].
  split; [by rewrite Hc', Hc1|].
  assert (Hfresh : forall c0 : varkey.Count,
            varkey.__init__ (VStr nm) (delete "idx" kwargs) c0 = (c0, Ok vk)).
  { intros c0. apply Hfin. by rewrite init_descr_fresh, B2. }
  split; [|split; [exact Hfresh|split]].
  - intros c0. apply Hfin. by rewrite init_descr_fresh, B1.
  - intros Ht c0. apply Hfin. by rewrite init_descr_fresh, B3.
  - intros c0 c1' fresh Hf. rewrite Hfresh in Hf. injection Hf as _ <-.
    simpl. by apply bool_decide_eq_true.
Qed.

(** Two units of fuel are enough: the nested construction of a [veckey]
    works on a bag without [idx] and so never constructs again. *)
Lemma __init__fuel_enough (fuel : nat) (name : Value)
  (kwargs : gmap string Value) (c : varkey.Count) :
  varkey.__init__fuel (S (S fuel)) name kwargs c = varkey.__init__ name kwargs c.
Proof.
  unfold varkey.__init__. simpl. run_M.
  destruct (varkey.init_descr name kwargs c) as [c1 [d|e]] eqn:Ed; [|done].
  destruct (varkey.str_without d ["modelnums"]) as [cl|e] eqn:Ecl; [|done].
  destruct (varkey.make_eqstr d cl) as [es|e]; [|done].
  destruct (d !! "idx") eqn:Ei; [|done].
  destruct (d !! "veckey") eqn:Ev; [done|].
  assert (exists s : string, d !! "name" = Some (VStr s)) as [s Hs].
  { unfold varkey.str_without, varkey.__getattr__ in Ecl.
    destruct (d !! "name") as [[]|]; try discriminate. eauto. }
  rewrite lookup_delete_ne, Hs by done.
  change (default VNone (Some (VStr s))) with (VStr s).
  destruct (varkey.init_descr (VStr s) (delete "name" (delete "idx" d)) c1)
    as [c2 [d'|e]] eqn:Ed'; [|done].
  assert (d' !! "idx" = None) as Ei'.
  { rewrite init_descr_fresh in Ed' by done.
    apply fresh_descr_spec in Ed' as (_ & u & q & -> & _). by simplify_map_eq. }
  destruct (varkey.str_without d' ["modelnums"]) as [cl'|e]; [|done].
  destruct (varkey.make_eqstr d' cl') as [es'|e]; [|done].
  by rewrite Ei'.
Qed.

End VarKeyFacts.

(** ** The properties at work on the concrete host *)

Section Examples.
#[local] Existing Instance Demo.demo_domain.
#[local] Existing Instance Demo.demo_runtime.
#[local] Existing Instance Demo.demo_algebra.

(** The folded hash of the concrete host is a function of the content. *)
Lemma demo_hash_pure : data.hash_is_content_pure.
Proof.
  intros t1 t2 W1 W2 Heq.
  apply terms_wf_spec in W1 as [P1 W1]. apply terms_wf_spec in W2 as [P2 W2].
  assert (length t1 = length t2) as Hlen.
  { unfold Py.dict_eq in Heq. apply andb_true_iff in Heq as [Heq _].
    by apply Nat.eqb_eq. }
  assert (Py.same_content data.HashVector_eq t1 t2) as [Hincl _].
  { by apply (dict_eq_same_content data.HashVector_eq
                (fun e => Py.dict_wf data.VarKey_eq e = true)
                HashVector_eq_sym HashVector_eq_trans). }
  apply (dict_incl_xor data.HashVector_eq
           (fun e => Py.dict_wf data.VarKey_eq e = true)
           HashVector_eq_sym HashVector_eq_trans); auto.
  intros k k' v _ _ Hk. unfold Demo.demo_term_hash. simpl. f_equal. f_equal.
  f_equal. unfold data.HashVector_eq, Py.dict_eq in Hk.
  apply andb_true_iff in Hk as [Hk _]. by apply Nat.eqb_eq.
Qed.

(** [3*x] differentiated with respect to [y], a name none of its keys has. *)
Lemma C1_witness :
  data.KeySet_getitem (snd (data.varkeys Demo.data_3x)) (VStr "y") = []
  /\ exists r : data.NomialData,
       snd (data.diff Demo.data_3x (VStr "y")) = Ok r
       /\ data.terms (data.hmap r) = [([], 0)]
       /\ data.map_units (data.hmap r) = None.
Proof.
  split; [reflexivity|].
  destruct (C1_diff_absent_variable Demo.data_3x (VStr "y"))
    as (r & H1 & _ & H2 & H3 & _); [reflexivity|].
  exists r. split; [exact H1|]. split; [exact H2|exact H3].
Defined.

(** [x + x_A] differentiated with respect to the name [x], which both of
    its keys have: the message names the keys and the reference, and does not
    contain the phrase "multiple matching variables". *)
Lemma C2_counterexample :
  length (data.KeySet_getitem (snd (data.varkeys Demo.data_x_xA)) (VStr "x")) = 2%nat
  /\ snd (data.diff Demo.data_x_xA (VStr "x"))
     = Raise (ValueError "multiple variables [x, x_A] found for key x")
  /\ Py.contains "multiple matching variables"
       "multiple variables [x, x_A] found for key x" = false.
Proof. split; [reflexivity|]. split; reflexivity. Qed.

Lemma C2_witness :
  snd (data.diff Demo.data_x_xA (VStr "x"))
  = Raise (ValueError "multiple variables [x, x_A] found for key x").
Proof.
  apply (proj1 (proj2 (C2_diff_raises_iff_ambiguous Demo.data_x_xA (VStr "x")))
           "[x, x_A]").
  - apply Nat.ltb_lt. reflexivity.
  - reflexivity.
Defined.



(** [3*x - y**2] with its two terms in either order. *)
Lemma C4_witness : data.__eq__ Demo.data_xy Demo.data_yx = true.
Proof.
  destruct (C4_eq_is_content_equality Demo.data_xy Demo.data_yx) as [_ H];
    [reflexivity|reflexivity|].
  apply H; [apply perm_swap|reflexivity].
Defined.

Lemma C5_witness :
  snd (data.__hash__ Demo.data_xy) = snd (data.__hash__ Demo.data_yx).
Proof.
  destruct (C5_hash_agrees_with_eq Demo.data_xy Demo.data_yx demo_hash_pure
              (data.reach_init Demo.map_xy) (data.reach_init Demo.map_yx))
    as (_ & _ & H & _); [reflexivity|reflexivity|].
  apply H; [apply perm_swap|reflexivity].
Defined.

(** [VarKey("x", units="")] and [VarKey("x", units=None)]. *)
Lemma C6_witness :
  varkey.__init__ (VStr "x") Demo.kw_units_empty 0
  = varkey.__init__ (VStr "x") Demo.kw_units_none 0
  /\ descr Demo.key_x !! "unitrepr" = Some (VStr "-").
Proof.
  destruct (C6_dimensionless_inputs_agree (VStr "x")
              Demo.kw_units_empty Demo.kw_units_none)
    as (_ & Hsame & _).
  - intros o H. discriminate H.
  - reflexivity.
  - reflexivity.
  - intros a Hu _. unfold Demo.kw_units_empty, Demo.kw_units_none.
    rewrite !lookup_singleton_ne by auto. reflexivity.
  - split; [apply Hsame|reflexivity].
Defined.

(** [VarKey(x_in_m, units="")]: the name is a key, so the keyword argument
    is ignored and the new key keeps the unit [m] of the key it copies. *)
Lemma C6_counterexample :
  varkey.dimensionless (varkey.unit_input Demo.kw_units_empty) = true
  /\ varkey.__init__ (VStr "x") DemoMore.kw_units_m 0 = (0, Ok DemoMore.key_x_m)
  /\ exists k : VarKey,
       varkey.__init__ (VKey DemoMore.key_x_m) Demo.kw_units_empty 0 = (0, Ok k)
       /\ descr k !! "units" = Some (@VQty Demo.demo_domain "m")
       /\ descr k !! "unitrepr" = Some (VStr "m")
       /\ varkey.unitrepr_str k = "m"
       /\ varkey.__eq__ k (VKey Demo.key_x) = false.
Proof.
  split; [reflexivity|]. split; [reflexivity|].
  exists DemoMore.key_x_m. repeat (split; [reflexivity|]). reflexivity.
Qed.

(** The component [v_(0,)]: its [veckey] is [VarKey("v")]. *)
Lemma C7_witness :
  exists vk : VarKey,
    veckey_attr Demo.key_v0 = Some vk
    /\ descr vk = delete "idx" (descr Demo.key_v0)
    /\ veckey_attr vk = None
    /\ forall c0 : varkey.Count,
         varkey.__init__ (VStr "v") (delete "idx" Demo.kw_idx) c0 = (c0, Ok vk).
Proof.
  destruct (C7_veckey_is_component_without_idx (VStr "v") Demo.kw_idx (VIdx [0])
              0 0 Demo.key_v0)
    as (vk & nm & H1 & _ & _ & H2 & H3 & _ & _ & _ & H4 & _).
  - intros o H. discriminate H.
  - intros _ H. discriminate H.
  - reflexivity.
  - reflexivity.
  - reflexivity.
  - exists vk. split; [exact H1|]. split; [exact H2|]. split; [exact H3|].
    apply H4. reflexivity.
Defined.

(** Two anonymous keys with a named one built between them. *)
Lemma C8_witness :
  descr Demo.key_anon0 !! "name" <> descr Demo.key_anon1 !! "name".
Proof.
  apply (proj2 (proj2 (C8_anonymous_names_are_distinct Demo.three_calls (-1)))
           0%nat 2%nat VNone VNone ∅ ∅ Demo.key_anon0 Demo.key_anon1);
    try reflexivity.
  apply Nat.ltb_lt. reflexivity.
Defined.

(** A freshly built [3*x] has no key set memoised; after [diff] it has. *)
Lemma C9_counterexample :
  data._varkeys Demo.data_3x = None
  /\ data._varkeys (fst (data.diff Demo.data_3x (VStr "y"))) = Some [Demo.key_x]
  /\ fst (data.diff Demo.data_3x (VStr "y")) <> Demo.data_3x.
Proof.
  split; [reflexivity|]. split; [reflexivity|].
  intros H. apply (f_equal data._varkeys) in H. discriminate H.
Qed.

Lemma C9_witness :
  data.hmap (fst (data.diff Demo.data_3x (VStr "y"))) = data.hmap Demo.data_3x
  /\ forall r : data.NomialData,
       snd (data.diff Demo.data_3x (VStr "y")) = Ok r -> data._varkeys r = None.
Proof.
  destruct (C9_diff_frame Demo.data_3x (VStr "y"))
    as (H1 & _ & _ & _ & _ & _ & _ & _ & _ & _ & _ & H2).
  split; [exact H1|]. intros r Hr. apply (H2 r Hr).
Defined.

(** [models] is not set on the key [x], which has no lineage, and reading it
    raises. *)
Lemma C10_counterexample :
  Py.dict_get String.eqb "models" (varkey.instance_dict Demo.key_x) = None
  /\ descr Demo.key_x !! "models" = None
  /\ varkey.getattr Demo.key_x "models" = Raise TypeError.
Proof. split; [reflexivity|]. split; reflexivity. Qed.

Lemma C10_witness :
  varkey.getattr Demo.key_x "label" = Ok (varkey.AValue VNone)
  /\ varkey.getattr Demo.key_x "unitrepr" = Ok (varkey.AValue (VStr "-")).
Proof.
  split.
  - destruct (C10_getattr_falls_back_to_descr Demo.key_x "label")
      as (H & _ & _); [discriminate|reflexivity| |reflexivity|exact H].
    apply (bool_decide_eq_false_1 _). reflexivity.
  - destruct (C10_getattr_falls_back_to_descr Demo.key_x "unitrepr")
      as (_ & H & _); [discriminate|reflexivity| |reflexivity|].
    + apply (bool_decide_eq_false_1 _). reflexivity.
    + apply H. reflexivity.
Defined.

End Examples.

(** * Further properties of [NomialData] *)

Section DataViews.
Context {Dom : Domain} {Rt : Runtime} {Alg : data.Algebra}.

(** Reading a memoised property, differentiating or hashing changes memo
    fields only: resetting afterwards gives what resetting before gives. *)
Lemma reset_after_read (d : data.NomialData) :
  data._reset (fst (data.exps d)) = data._reset d
  /\ data._reset (fst (data.cs d)) = data._reset d
  /\ data._reset (fst (data.varlocs d)) = data._reset d
  /\ data._reset (fst (data.varkeys d)) = data._reset d
  /\ data._reset (fst (data.values d)) = data._reset d
  /\ data._reset (fst (data.__hash__ d)) = data._reset d
  /\ (forall var : Value, data._reset (fst (data.diff d var)) = data._reset d).
Proof.
  repeat split.
  - unfold data.exps. by destruct (data._exps d).
  - unfold data.cs. by destruct (data._cs d).
  - unfold data.varlocs, data.exps.
    destruct (data._varlocs d); [done|]. by destruct (data._exps d).
  - unfold data.varkeys. by destruct (data._varkeys d).
  - unfold data.values. by destruct (data._values d).
  - unfold data.__hash__. by destruct (data._hashvalue d).
  - intros var. rewrite diff_receiver. unfold data.varkeys.
    by destruct (data._varkeys d).
Qed.

Lemma reset_reset (d : data.NomialData) : data._reset (data._reset d) = data._reset d.
Proof. reflexivity. Qed.

#[local] Abbreviation varlocs_of e :=
  (foldl (fun locs (ie : nat * data.HashVector) =>
            foldl (fun locs' (entry : VarKey * Num) =>
                     data.varlocs_append (fst entry) (fst ie) locs')
                  locs (snd ie))
         [] (imap (fun i exp => (i, exp)) e)).

#[local] Abbreviation cs_of m :=
  (match data.map_units m with
   | Some u => if units_truthy u then (map snd (data.terms m), Some u)
               else (map snd (data.terms m), None)
   | None => (map snd (data.terms m), None)
   end).

#[local] Abbreviation values_of ks :=
  (omap (fun k : VarKey => match descr k !! "value" with
                           | Some v => Some (k, v)
                           | None => None
                           end) ks).

(** The fields of the receiver after each read, and the value read. *)
Lemma exps_fields (d : data.NomialData) :
  snd (data.exps d) = default (map fst (data.terms (data.hmap d))) (data._exps d)
  /\ data._exps (fst (data.exps d)) = Some (snd (data.exps d))
  /\ data._cs (fst (data.exps d)) = data._cs d
  /\ data._varlocs (fst (data.exps d)) = data._varlocs d
  /\ data._varkeys (fst (data.exps d)) = data._varkeys d
  /\ data._values (fst (data.exps d)) = data._values d
  /\ data._hashvalue (fst (data.exps d)) = data._hashvalue d.
Proof. unfold data.exps. destruct (data._exps d) eqn:E; simpl; by rewrite ?E. Qed.

Lemma cs_fields (d : data.NomialData) :
  snd (data.cs d) = default (cs_of (data.hmap d)) (data._cs d)
  /\ data._cs (fst (data.cs d)) = Some (snd (data.cs d))
  /\ data._exps (fst (data.cs d)) = data._exps d
  /\ data._varlocs (fst (data.cs d)) = data._varlocs d
  /\ data._varkeys (fst (data.cs d)) = data._varkeys d
  /\ data._values (fst (data.cs d)) = data._values d
  /\ data._hashvalue (fst (data.cs d)) = data._hashvalue d.
Proof. unfold data.cs. destruct (data._cs d) eqn:E; simpl; by rewrite ?E. Qed.

Lemma varlocs_fields (d : data.NomialData) :
  snd (data.varlocs d)
  = default (varlocs_of (snd (data.exps d))) (data._varlocs d)
  /\ data._varlocs (fst (data.varlocs d)) = Some (snd (data.varlocs d))
  /\ data._exps (fst (data.varlocs d))
     = match data._varlocs d with
       | Some _ => data._exps d
       | None => Some (snd (data.exps d))
       end
  /\ data._cs (fst (data.varlocs d)) = data._cs d
  /\ data._varkeys (fst (data.varlocs d)) = data._varkeys d
  /\ data._values (fst (data.varlocs d)) = data._values d
  /\ data._hashvalue (fst (data.varlocs d)) = data._hashvalue d.
Proof.
  unfold data.varlocs. destruct (data._varlocs d) eqn:E; simpl; [by rewrite ?E|].
  unfold data.exps. destruct (data._exps d) eqn:Ee; simpl; by rewrite ?Ee.
Qed.

Lemma varkeys_fields (d : data.NomialData) :
  snd (data.varkeys d) = default (data.vks d) (data._varkeys d)
  /\ data._varkeys (fst (data.varkeys d)) = Some (snd (data.varkeys d))
  /\ data._exps (fst (data.varkeys d)) = data._exps d
  /\ data._cs (fst (data.varkeys d)) = data._cs d
  /\ data._varlocs (fst (data.varkeys d)) = data._varlocs d
  /\ data._values (fst (data.varkeys d)) = data._values d
  /\ data._hashvalue (fst (data.varkeys d)) = data._hashvalue d.
Proof. unfold data.varkeys. destruct (data._varkeys d) eqn:E; simpl; by rewrite ?E. Qed.

Lemma values_fields (d : data.NomialData) :
  snd (data.values d) = default (values_of (data.vks d)) (data._values d)
  /\ data._values (fst (data.values d)) = Some (snd (data.values d))
  /\ data._exps (fst (data.values d)) = data._exps d
  /\ data._cs (fst (data.values d)) = data._cs d
  /\ data._varlocs (fst (data.values d)) = data._varlocs d
  /\ data._varkeys (fst (data.values d)) = data._varkeys d
  /\ data._hashvalue (fst (data.values d)) = data._hashvalue d.
Proof. unfold data.values. destruct (data._values d) eqn:E; simpl; by rewrite ?E. Qed.

Lemma hash_fields (d : data.NomialData) :
  data._exps (fst (data.__hash__ d)) = data._exps d
  /\ data._cs (fst (data.__hash__ d)) = data._cs d
  /\ data._varlocs (fst (data.__hash__ d)) = data._varlocs d
  /\ data._varkeys (fst (data.__hash__ d)) = data._varkeys d
  /\ data._values (fst (data.__hash__ d)) = data._values d.
Proof. unfold data.__hash__. by destruct (data._hashvalue d). Qed.

Lemma reset_fields (d : data.NomialData) :
  data.hmap (data._reset d) = data.hmap d
  /\ data.vks (data._reset d) = data.vks d
  /\ data.units (data._reset d) = data.units d
  /\ data.any_nonpositive_cs (data._reset d) = data.any_nonpositive_cs d.
Proof. done. Qed.

(** The non-memo fields survive every read. *)
Lemma read_keeps (d d' : data.NomialData) :
  data._reset d' = data._reset d ->
  data.hmap d' = data.hmap d /\ data.vks d' = data.vks d
  /\ data.units d' = data.units d
  /\ data.any_nonpositive_cs d' = data.any_nonpositive_cs d.
Proof.
  intros H.
  pose proof (f_equal data.hmap H). pose proof (f_equal data.vks H).
  pose proof (f_equal data.units H).
  pose proof (f_equal data.any_nonpositive_cs H). done.
Qed.

(** The memos of a reachable object are never stale: what a memo holds,
    when it holds something, is what a newly built object over the same map
    computes. *)
Lemma reachable_memos (d : data.NomialData) :
  data.reachable d ->
  data._reset d = data.__init__ (data.hmap d)
  /\ (forall e, data._exps d = Some e -> e = map fst (data.terms (data.hmap d)))
  /\ (forall a, data._cs d = Some a -> a = cs_of (data.hmap d))
  /\ (forall l, data._varlocs d = Some l ->
        l = varlocs_of (map fst (data.terms (data.hmap d))))
  /\ (forall ks, data._varkeys d = Some ks -> ks = data.vks d)
  /\ (forall vs, data._values d = Some vs -> vs = values_of (data.vks d)).
Proof.
  induction 1 as [m|d _ IH|d _ IH|d _ IH|d _ IH|d _ IH|d _ IH|d _ IH|d v _ IH];
    try destruct IH as (R & E & C & L & K & V).
  - repeat split; intros ? [=].
  - repeat split; try (intros ? [=]). exact R.
  - destruct (reset_after_read d) as (Hr & _).
    destruct (read_keeps _ _ Hr) as (-> & -> & _).
    destruct (exps_fields d) as (Hv & -> & -> & -> & -> & -> & _).
    rewrite Hr, Hv. repeat split; auto.
    intros ? [= <-]. destruct (data._exps d); simpl; auto.
  - destruct (reset_after_read d) as (_ & _ & Hr & _).
    destruct (read_keeps _ _ Hr) as (-> & -> & _).
    destruct (varlocs_fields d) as (Hv & -> & -> & -> & -> & -> & _).
    destruct (exps_fields d) as (He & _).
    rewrite Hr, Hv, He. repeat split; auto.
    + destruct (data._varlocs d); [done|]. intros ? [= <-].
      destruct (data._exps d); simpl; auto.
    + intros ? [= <-]. destruct (data._varlocs d); simpl; auto.
      destruct (data._exps d) eqn:Ee; simpl; [|done]. by rewrite (E _ eq_refl).
  - destruct (reset_after_read d) as (_ & Hr & _).
    destruct (read_keeps _ _ Hr) as (-> & -> & _).
    destruct (cs_fields d) as (Hv & -> & -> & -> & -> & -> & _).
    rewrite Hr, Hv. repeat split; auto.
    intros ? [= <-]. destruct (data._cs d); simpl; auto.
  - destruct (reset_after_read d) as (_ & _ & _ & _ & _ & Hr & _).
    destruct (read_keeps _ _ Hr) as (-> & -> & _).
    destruct (hash_fields d) as (-> & -> & -> & -> & ->).
    rewrite Hr. done.
  - destruct (reset_after_read d) as (_ & _ & _ & Hr & _).
    destruct (read_keeps _ _ Hr) as (-> & -> & _).
    destruct (varkeys_fields d) as (Hv & -> & -> & -> & -> & -> & _).
    rewrite Hr, Hv. repeat split; auto.
    intros ? [= <-]. destruct (data._varkeys d); simpl; auto.
  - destruct (reset_after_read d) as (_ & _ & _ & _ & Hr & _).
    destruct (read_keeps _ _ Hr) as (-> & -> & _).
    destruct (values_fields d) as (Hv & -> & -> & -> & -> & -> & _).
    rewrite Hr, Hv. repeat split; auto.
    intros ? [= <-]. destruct (data._values d); simpl; auto.
  - rewrite diff_receiver.
    destruct (reset_after_read d) as (_ & _ & _ & Hr & _).
    destruct (read_keeps _ _ Hr) as (-> & -> & _).
    destruct (varkeys_fields d) as (Hv & -> & -> & -> & -> & -> & _).
    rewrite Hr, Hv. repeat split; auto.
    intros ? [= <-]. destruct (data._varkeys d); simpl; auto.
Qed.

(** *** [exps] and [cs] *)

Lemma combine_fst_snd {A B : Type} (l : list (A * B)) :
  combine (map fst l) (map snd l) = l.
Proof. induction l as [|[a b] l IH]; simpl; [done|by rewrite IH]. Qed.

Lemma lookup_map {A B : Type} (f : A -> B) (l : list A) (i : nat) :
  map f l !! i = f <$> (l !! i).
Proof. revert i. induction l as [|a l IH]; intros [|i]; simpl; auto. Qed.

(** X1. On every reachable object [exps] enumerates the exponent vectors of
    the map and [cs] its coefficients, in the same order: pairing them index
    by index gives back the terms of the map.  [cs] carries the unit of the
    map exactly when that unit is truthy. *)
Theorem X1_exps_cs_pair_up (d : data.NomialData) :
  data.reachable d ->
  combine (snd (data.exps d)) (fst (snd (data.cs d))) = data.terms (data.hmap d)
  /\ length (snd (data.exps d)) = length (fst (snd (data.cs d)))
  /\ (forall (i : nat) (e : data.HashVector) (c : Num),
        snd (data.exps d) !! i = Some e ->
        fst (snd (data.cs d)) !! i = Some c ->
        data.terms (data.hmap d) !! i = Some (e, c))
  /\ snd (snd (data.cs d))
     = match data.map_units (data.hmap d) with
       | Some u => if units_truthy u then Some u else None
       | None => None
       end.
Proof.
  intros Hr. destruct (reachable_memos d Hr) as (_ & E & C & _).
  destruct (exps_fields d) as (He & _). destruct (cs_fields d) as (Hc & _).
  assert (snd (data.exps d) = map fst (data.terms (data.hmap d))) as ->.
  { rewrite He. destruct (data._exps d); simpl; auto. }
  assert (snd (data.cs d) = cs_of (data.hmap d)) as Hcs.
  { rewrite Hc. destruct (data._cs d); simpl; auto. }
  assert (fst (snd (data.cs d)) = map snd (data.terms (data.hmap d))) as ->.
  { rewrite Hcs. destruct (data.map_units (data.hmap d)) as [u|]; [|done].
    by destruct (units_truthy u). }
  split; [apply combine_fst_snd|]. split; [by rewrite !length_map|]. split.
  - intros i e c Hi Hj. rewrite lookup_map in Hi. rewrite lookup_map in Hj.
    destruct (data.terms (data.hmap d) !! i) as [[e' c']|]; [|done].
    simpl in *. congruence.
  - rewrite Hcs. destruct (data.map_units (data.hmap d)) as [u|]; [|done].
    by destruct (units_truthy u).
Qed.

(** *** [varlocs] *)

Lemma VarKey_eq_spec (a b : VarKey) :
  data.VarKey_eq a b = true <-> eqstr a = eqstr b.
Proof. unfold data.VarKey_eq. simpl. apply bool_decide_eq_true. Qed.

Lemma VarKey_eq_right (a b k : VarKey) :
  data.VarKey_eq a b = true -> data.VarKey_eq k a = data.VarKey_eq k b.
Proof.
  intros H. apply VarKey_eq_spec in H. unfold data.VarKey_eq. simpl.
  by rewrite H.
Qed.

Lemma dict_get_equal_keys {V : Type} (a b : VarKey) (d : list (VarKey * V)) :
  data.VarKey_eq a b = true ->
  Py.dict_get data.VarKey_eq a d = Py.dict_get data.VarKey_eq b d.
Proof.
  intros H. induction d as [|[k v] d IH]; simpl; [done|].
  by rewrite (VarKey_eq_right a b k H), IH.
Qed.

(** Insert then look up. *)
Lemma dict_get_set {V : Type} (k k' : VarKey) (v : V) (d : list (VarKey * V)) :
  Py.dict_get data.VarKey_eq k' (Py.dict_set data.VarKey_eq k v d)
  = if data.VarKey_eq k k' then Some v else Py.dict_get data.VarKey_eq k' d.
Proof.
  induction d as [|[k0 v0] d IH]; simpl; [done|].
  destruct (data.VarKey_eq k0 k) eqn:E0; simpl; rewrite ?IH;
    destruct (data.VarKey_eq k k') eqn:E1;
    destruct (data.VarKey_eq k0 k') eqn:E2; try done;
    rewrite ?VarKey_eq_spec, <- ?not_true_iff_false, ?VarKey_eq_spec in *;
    congruence.
Qed.

Lemma dict_set_absent {V : Type} (k : VarKey) (v : V) (d : list (VarKey * V)) :
  Py.dict_get data.VarKey_eq k d = None ->
  Py.dict_set data.VarKey_eq k v d = d ++ [(k, v)].
Proof.
  induction d as [|[k0 v0] d IH]; simpl; [done|].
  destruct (data.VarKey_eq k0 k); [done|]. intros H. by rewrite IH.
Qed.

#[local] Abbreviation occ locs vk :=
  (default [] (Py.dict_get data.VarKey_eq vk locs)).

Lemma varlocs_append_get (var vk : VarKey) (i : nat)
  (locs : list (VarKey * list nat)) :
  Py.dict_get data.VarKey_eq vk (data.varlocs_append var i locs)
  = if data.VarKey_eq var vk then Some (occ locs vk ++ [i])
    else Py.dict_get data.VarKey_eq vk locs.
Proof.
  unfold data.varlocs_append.
  destruct (Py.dict_get data.VarKey_eq var locs) as [l|] eqn:E.
  - rewrite dict_get_set. destruct (data.VarKey_eq var vk) eqn:Ev; [|done].
    by rewrite <- (dict_get_equal_keys var vk locs Ev), E.
  - rewrite <- (dict_set_absent var [i] locs E), dict_get_set.
    destruct (data.VarKey_eq var vk) eqn:Ev; [|done].
    by rewrite <- (dict_get_equal_keys var vk locs Ev), E.
Qed.

#[local] Abbreviation add_term i :=
  (fun (locs' : list (VarKey * list nat)) (entry : VarKey * Num) =>
     data.varlocs_append (fst entry) i locs').

(** One term adds its index once to the list of each of its keys. *)
Lemma add_term_occ (vk : VarKey) (i : nat) (exp : data.HashVector) :
  Py.dict_wf data.VarKey_eq exp = true ->
  forall locs : list (VarKey * list nat),
    (forall k l, Py.dict_get data.VarKey_eq k locs = Some l -> l <> []) ->
    occ (foldl (add_term i) locs exp) vk
    = occ locs vk ++ (if Py.dict_has data.VarKey_eq vk exp then [i] else [])
    /\ (forall k l, Py.dict_get data.VarKey_eq k (foldl (add_term i) locs exp)
                    = Some l -> l <> []).
Proof.
  induction exp as [|[k x] exp IH]; intros Hwf locs Hne; simpl.
  - split; [by rewrite app_nil_r|done].
  - simpl in Hwf. apply andb_true_iff in Hwf as [Hk Hwf].
    apply negb_true_iff in Hk.
    destruct (IH Hwf (data.varlocs_append k i locs)) as [Ho Hne'].
    { intros k' l. rewrite varlocs_append_get.
      destruct (data.VarKey_eq k k'); [|by apply Hne].
      intros [= <-]. by destruct (occ locs k'). }
    split; [|exact Hne'].
    rewrite Ho, varlocs_append_get. unfold Py.dict_has at 2. simpl.
    destruct (data.VarKey_eq k vk) eqn:Ev; simpl.
    + unfold Py.dict_has in *.
      rewrite <- (dict_get_equal_keys k vk exp Ev).
      destruct (Py.dict_get data.VarKey_eq k exp); [done|].
      by rewrite app_nil_r.
    + done.
Qed.

Lemma add_terms_occ (vk : VarKey) (e : list data.HashVector) :
  Forall (fun exp => Py.dict_wf data.VarKey_eq exp = true) e ->
  forall (g : nat -> nat) (locs : list (VarKey * list nat)),
    (forall k l, Py.dict_get data.VarKey_eq k locs = Some l -> l <> []) ->
    let result :=
      foldl (fun locs (ie : nat * data.HashVector) =>
               foldl (add_term (fst ie)) locs (snd ie))
            locs (imap (fun i exp => (g i, exp)) e) in
    occ result vk
    = occ locs vk
      ++ concat (imap (fun i exp => if Py.dict_has data.VarKey_eq vk exp
                                    then [g i] else []) e)
    /\ (forall k l, Py.dict_get data.VarKey_eq k result = Some l -> l <> []).
Proof.
  induction 1 as [|exp e Hwf _ IH]; intros g locs Hne; simpl.
  - split; [by rewrite app_nil_r|done].
  - destruct (add_term_occ vk (g 0%nat) exp Hwf locs Hne) as [Ho Hne'].
    destruct (IH (g ∘ S) _ Hne') as [Ho' Hne''].
    split; [|exact Hne''].
    etransitivity; [exact Ho'|]. rewrite Ho, <- app_assoc. reflexivity.
Qed.

Lemma term_indices_In (vk : VarKey) (e : list data.HashVector) (j : nat) :
  In j (term_indices vk e) <->
  exists exp, e !! j = Some exp /\ Py.dict_has data.VarKey_eq vk exp = true.
Proof.
  unfold term_indices.
  assert (forall (g : nat -> nat),
            In j (concat (imap (fun i exp =>
                                  if Py.dict_has data.VarKey_eq vk exp
                                  then [g i] else []) e)) <->
            exists i exp, e !! i = Some exp
                          /\ Py.dict_has data.VarKey_eq vk exp = true
                          /\ j = g i) as H.
  { induction e as [|exp e IH]; intros g; simpl.
    - split; [done|]. by intros (i & exp & Hi & _).
    - rewrite in_app_iff, (IH (g ∘ S)). split.
      + intros [Hin|(i & exp' & Hi & Hh & ->)].
        * exists 0%nat, exp. simpl.
          destruct (Py.dict_has data.VarKey_eq vk exp); [|done].
          destruct Hin as [<-|[]]. done.
        * exists (S i), exp'. done.
      + intros (i & exp' & Hi & Hh & ->). destruct i as [|i]; simpl in Hi.
        * injection Hi as <-. left. rewrite Hh. by left.
        * right. exists i, exp'. done. }
  rewrite (H (fun i => i)). split.
  - intros (i & exp & Hi & Hh & ->). eauto.
  - intros (exp & Hi & Hh). eauto.
Qed.

(** X2. On every reachable object [varlocs] maps a key to the increasing
    list of the indices of the terms whose exponent vector holds it, and has
    no entry for a key that no term holds. *)
Theorem X2_varlocs_lists_the_terms_of_a_key (d : data.NomialData) (vk : VarKey) :
  data.reachable d ->
  (forall t, In t (data.terms (data.hmap d)) ->
             Py.dict_wf data.VarKey_eq (fst t) = true) ->
  Py.dict_get data.VarKey_eq vk (snd (data.varlocs d))
  = match term_indices vk (snd (data.exps d)) with
    | [] => None
    | l => Some l
    end
  /\ (forall i : nat,
        (exists l, Py.dict_get data.VarKey_eq vk (snd (data.varlocs d)) = Some l
                   /\ In i l)
        <-> (exists exp, snd (data.exps d) !! i = Some exp
                         /\ Py.dict_has data.VarKey_eq vk exp = true)).
Proof.
  intros Hr Hwf. destruct (reachable_memos d Hr) as (_ & E & _ & L & _).
  destruct (exps_fields d) as (He & _). destruct (varlocs_fields d) as (Hl & _).
  assert (snd (data.exps d) = map fst (data.terms (data.hmap d))) as Hexps.
  { rewrite He. destruct (data._exps d); simpl; auto. }
  assert (snd (data.varlocs d) = varlocs_of (snd (data.exps d))) as ->.
  { rewrite Hl, Hexps. destruct (data._varlocs d); simpl; auto. }
  assert (Forall (fun exp => Py.dict_wf data.VarKey_eq exp = true)
            (snd (data.exps d))) as Hwfe.
  { rewrite Hexps. apply List.Forall_forall. intros exp Hin.
    apply in_map_iff in Hin as (t & <- & Hin). by apply Hwf. }
  destruct (add_terms_occ vk (snd (data.exps d)) Hwfe (fun i => i) []) as [Ho Hne];
    [done|].
  simpl in Ho.
  assert (Py.dict_get data.VarKey_eq vk (varlocs_of (snd (data.exps d)))
          = match term_indices vk (snd (data.exps d)) with
            | [] => None
            | l => Some l
            end) as Hget.
  { unfold term_indices. rewrite <- Ho.
    destruct (Py.dict_get data.VarKey_eq vk (varlocs_of (snd (data.exps d))))
      as [l|] eqn:Eg; simpl; [|done].
    specialize (Hne _ _ Eg). by destruct l. }
  split; [exact Hget|].
  intros i. rewrite Hget, <- term_indices_In.
  destruct (term_indices vk (snd (data.exps d))) as [|n l]; split.
  - by intros (l & [=] & _).
  - intros [].
  - by intros (l' & [= <-] & Hin).
  - intros Hin. eauto.
Qed.

(** *** [vks] *)

#[local] Abbreviation note_key :=
  (fun (seen : list VarKey) (k : VarKey) =>
     if data.vks_has k seen then seen else seen ++ [k]).

Lemma vks_has_spec (vk : VarKey) (seen : list VarKey) :
  data.vks_has vk seen = true <-> In (eqstr vk) (map eqstr seen).
Proof.
  unfold data.vks_has. rewrite existsb_exists, in_map_iff. split.
  - intros (k & Hin & Hk). apply VarKey_eq_spec in Hk. eauto.
  - intros (k & Hk & Hin). exists k. split; [done|]. by apply VarKey_eq_spec.
Qed.

Lemma note_entries (e : data.HashVector) (seen : list VarKey) :
  foldl (fun seen' (entry : VarKey * Num) =>
           if data.vks_has (fst entry) seen' then seen'
           else seen' ++ [fst entry]) seen e
  = foldl note_key seen (map fst e).
Proof.
  revert seen. induction e as [|entry e IH]; intros seen; simpl; [done|].
  by rewrite IH.
Qed.

Lemma note_terms (ts : list (data.HashVector * Num)) (seen : list VarKey) :
  foldl (fun seen (term : data.HashVector * Num) =>
           foldl (fun seen' (entry : VarKey * Num) =>
                    if data.vks_has (fst entry) seen' then seen'
                    else seen' ++ [fst entry]) seen (fst term)) seen ts
  = foldl note_key seen
      (concat (map (fun t : data.HashVector * Num => map fst (fst t)) ts)).
Proof.
  revert seen. induction ts as [|t ts IH]; intros seen; simpl; [done|].
  by rewrite foldl_app, IH, note_entries.
Qed.

Lemma vks_as_one_fold (m : data.NomialMap) :
  data.vks (data.__init__ m)
  = foldl note_key []
      (concat (map (fun t : data.HashVector * Num => map fst (fst t))
                 (data.terms m))).
Proof. unfold data.__init__. simpl. apply note_terms. Qed.

Lemma NoDup_snoc {A : Type} (l : list A) (x : A) :
  List.NoDup l -> ~ In x l -> List.NoDup (l ++ [x]).
Proof.
  intros Hnd Hx. apply (Permutation_NoDup (l := x :: l)).
  - apply Permutation_cons_append.
  - by constructor.
Qed.

Lemma note_keys_spec (ks : list VarKey) : forall seen : list VarKey,
  List.NoDup (map eqstr seen) ->
  List.NoDup (map eqstr (foldl note_key seen ks))
  /\ (forall k, In k (foldl note_key seen ks) -> In k seen \/ In k ks)
  /\ (forall k, In k seen \/ In k ks ->
                In (eqstr k) (map eqstr (foldl note_key seen ks))).
Proof.
  induction ks as [|k0 ks IH]; intros seen Hnd; simpl.
  - split; [done|]. split; [tauto|]. intros k [H|[]]. by apply in_map.
  - destruct (data.vks_has k0 seen) eqn:Eh.
    + destruct (IH seen Hnd) as (N & S & C). split; [done|]. split.
      * intros k Hk. destruct (S k Hk); tauto.
      * intros k [H|[<-|H]]; auto. apply vks_has_spec in Eh.
        destruct (proj1 (in_map_iff _ _ _) Eh) as (k' & Hk' & Hin').
        rewrite <- Hk'. apply C. by left.
    + assert (List.NoDup (map eqstr (seen ++ [k0]))) as Hnd'.
      { rewrite map_app. simpl. apply NoDup_snoc; [done|].
        intros Hin. apply vks_has_spec in Hin. congruence. }
      destruct (IH (seen ++ [k0]) Hnd') as (N & S & C).
      split; [done|]. split.
      * intros k Hk. destruct (S k Hk) as [H|H]; [|tauto].
        apply in_app_iff in H as [H|[<-|[]]]; tauto.
      * intros k [H|[<-|H]]; apply C; rewrite ?in_app_iff; simpl; tauto.
Qed.

Lemma NoDup_map_lookup {A B : Type} (f : A -> B) (l : list A) :
  List.NoDup (map f l) ->
  forall (i j : nat) (a b : A),
    l !! i = Some a -> l !! j = Some b -> f a = f b -> i = j.
Proof.
  induction l as [|x l IH]; intros Hnd i j a b Hi Hj Hf; [done|].
  simpl in Hnd. apply NoDup_cons_iff in Hnd as [Hx Hnd].
  assert (forall n y, l !! n = Some y -> In (f y) (map f l)) as Hin.
  { intros n y Hn. apply in_map. apply list_elem_of_In.
    by apply list_elem_of_lookup_2 in Hn. }
  destruct i as [|i], j as [|j]; simpl in *; simplify_eq; auto.
  - destruct Hx. rewrite Hf. eauto.
  - destruct Hx. rewrite <- Hf. eauto.
  - f_equal. eauto.
Qed.

(** X3. [vks] of a reachable object holds every key that occurs in a term of
    the map, holds nothing else, and holds no key twice (no two of its keys
    are equal). *)
Theorem X3_vks_are_the_keys_of_the_map (d : data.NomialData) :
  data.reachable d ->
  List.NoDup (map eqstr (data.vks d))
  /\ (forall k : VarKey,
        In k (data.vks d) ->
        exists t x, In t (data.terms (data.hmap d)) /\ In (k, x) (fst t))
  /\ (forall (t : data.HashVector * Num) (k : VarKey) (x : Num),
        In t (data.terms (data.hmap d)) -> In (k, x) (fst t) ->
        data.vks_has k (data.vks d) = true)
  /\ (forall (i j : nat) (a b : VarKey),
        data.vks d !! i = Some a -> data.vks d !! j = Some b -> i <> j ->
        data.VarKey_eq a b = false).
Proof.
  intros Hr. destruct (reachable_memos d Hr) as (R & _).
  assert (data.vks d = data.vks (data.__init__ (data.hmap d))) as Hv.
  { by rewrite <- R. }
  rewrite Hv, vks_as_one_fold.
  set (ks := concat (map (fun t : data.HashVector * Num => map fst (fst t))
                       (data.terms (data.hmap d)))).
  destruct (note_keys_spec ks []) as (N & S & C); [constructor|].
  split; [exact N|]. split; [|split].
  - intros k Hk. destruct (S k Hk) as [[]|Hin].
    apply in_concat in Hin as (l & Hl & Hin).
    apply in_map_iff in Hl as (t & <- & Ht).
    apply in_map_iff in Hin as ([k' x] & <- & Hin). eauto.
  - intros t k x Ht Hin. apply vks_has_spec, C. right.
    apply in_concat. exists (map fst (fst t)). split.
    + apply in_map_iff. eauto.
    + apply in_map_iff. exists (k, x). eauto.
  - intros i j a b Hi Hj Hij. apply not_true_is_false. intros Heq.
    apply VarKey_eq_spec in Heq. apply Hij.
    apply (NoDup_map_lookup eqstr _ N i j a b); auto.
Qed.

(** *** Memoisation, frames and [_reset] *)

(** X4. Each memoised property, read a second time, answers what it
    answered the first time and leaves the object as the first read left it. *)
Theorem X4_second_read_changes_nothing (d : data.NomialData) :
  data.exps (fst (data.exps d)) = data.exps d
  /\ data.cs (fst (data.cs d)) = data.cs d
  /\ data.varlocs (fst (data.varlocs d)) = data.varlocs d
  /\ data.varkeys (fst (data.varkeys d)) = data.varkeys d
  /\ data.values (fst (data.values d)) = data.values d
  /\ (forall var : Value,
        fst (data.diff (fst (data.diff d var)) var) = fst (data.diff d var)
        /\ snd (data.diff (fst (data.diff d var)) var) = snd (data.diff d var)).
Proof.
  split; [|split; [|split; [|split; [|split]]]].
  - unfold data.exps. destruct (data._exps d) eqn:E; simpl; by rewrite ?E.
  - unfold data.cs. destruct (data._cs d) eqn:E; simpl; by rewrite ?E.
  - unfold data.varlocs. destruct (data._varlocs d) eqn:E; simpl; [by rewrite ?E|].
    unfold data.exps. by destruct (data._exps d).
  - unfold data.varkeys. destruct (data._varkeys d) eqn:E; simpl; by rewrite ?E.
  - unfold data.values. destruct (data._values d) eqn:E; simpl; by rewrite ?E.
  - intros var.
    assert (data.varkeys (fst (data.varkeys d)) = data.varkeys d) as Hk.
    { unfold data.varkeys. destruct (data._varkeys d) eqn:E; simpl; by rewrite ?E. }
    split.
    + rewrite !diff_receiver. by rewrite Hk.
    + rewrite !diff_result, diff_receiver, Hk.
      destruct (varkeys_frame d) as (-> & _). reflexivity.
Qed.

(** X5. [_reset] empties all six memos and keeps the rest; on a reachable
    object it yields the object [__init__] builds from the map, and no view
    answers differently after it: the memos were not stale. *)
Theorem X5_reset_gives_the_object_as_built (d : data.NomialData) :
  data.reachable d ->
  data._reset d = data.__init__ (data.hmap d)
  /\ snd (data.exps (data._reset d)) = snd (data.exps d)
  /\ snd (data.cs (data._reset d)) = snd (data.cs d)
  /\ snd (data.varlocs (data._reset d)) = snd (data.varlocs d)
  /\ snd (data.varkeys (data._reset d)) = snd (data.varkeys d)
  /\ snd (data.values (data._reset d)) = snd (data.values d)
  /\ snd (data.__hash__ (data._reset d)) = snd (data.__hash__ d).
Proof.
  intros Hr. destruct (reachable_memos d Hr) as (R & E & C & L & K & V).
  destruct (exps_fields d) as (He & _). destruct (cs_fields d) as (Hc & _).
  destruct (varlocs_fields d) as (Hl & _).
  destruct (varkeys_fields d) as (Hk & _).
  destruct (values_fields d) as (Hv & _).
  assert (snd (data.exps d) = map fst (data.terms (data.hmap d))) as Hexps.
  { rewrite He. destruct (data._exps d); simpl; auto. }
  split; [exact R|]. split; [by rewrite Hexps|]. split; [|split; [|split; [|split]]].
  - rewrite Hc. destruct (data._cs d); simpl; [|done]. symmetry. auto.
  - rewrite Hl, Hexps. destruct (data._varlocs d); simpl; [|done]. symmetry. auto.
  - rewrite Hk. destruct (data._varkeys d); simpl; [|done]. symmetry. auto.
  - rewrite Hv. destruct (data._values d); simpl; [|done]. symmetry. auto.
  - rewrite (hash_value d (reachable_cache_ok d Hr)). reflexivity.
Qed.

(** X6. A read writes its own memo and nothing else, except that [varlocs]
    on a miss also memoises [exps], which it reads; hashing writes
    [_hashvalue] only. *)
Theorem X6_reads_write_their_own_memo_only (d : data.NomialData) :
  (data._reset (fst (data.exps d)) = data._reset d
   /\ data._cs (fst (data.exps d)) = data._cs d
   /\ data._varlocs (fst (data.exps d)) = data._varlocs d
   /\ data._varkeys (fst (data.exps d)) = data._varkeys d
   /\ data._values (fst (data.exps d)) = data._values d
   /\ data._hashvalue (fst (data.exps d)) = data._hashvalue d)
  /\ (data._reset (fst (data.cs d)) = data._reset d
      /\ data._exps (fst (data.cs d)) = data._exps d
      /\ data._varlocs (fst (data.cs d)) = data._varlocs d
      /\ data._varkeys (fst (data.cs d)) = data._varkeys d
      /\ data._values (fst (data.cs d)) = data._values d
      /\ data._hashvalue (fst (data.cs d)) = data._hashvalue d)
  /\ (data._reset (fst (data.varlocs d)) = data._reset d
      /\ data._exps (fst (data.varlocs d))
         = match data._varlocs d with
           | Some _ => data._exps d
           | None => Some (snd (data.exps d))
           end
      /\ data._cs (fst (data.varlocs d)) = data._cs d
      /\ data._varkeys (fst (data.varlocs d)) = data._varkeys d
      /\ data._values (fst (data.varlocs d)) = data._values d
      /\ data._hashvalue (fst (data.varlocs d)) = data._hashvalue d)
  /\ (data._reset (fst (data.values d)) = data._reset d
      /\ data._exps (fst (data.values d)) = data._exps d
      /\ data._cs (fst (data.values d)) = data._cs d
      /\ data._varlocs (fst (data.values d)) = data._varlocs d
      /\ data._varkeys (fst (data.values d)) = data._varkeys d
      /\ data._hashvalue (fst (data.values d)) = data._hashvalue d)
  /\ (data._reset (fst (data.__hash__ d)) = data._reset d
      /\ data._exps (fst (data.__hash__ d)) = data._exps d
      /\ data._cs (fst (data.__hash__ d)) = data._cs d
      /\ data._varlocs (fst (data.__hash__ d)) = data._varlocs d
      /\ data._varkeys (fst (data.__hash__ d)) = data._varkeys d
      /\ data._values (fst (data.__hash__ d)) = data._values d).
Proof.
  destruct (reset_after_read d) as (R1 & R2 & R3 & _ & R5 & R6 & _).
  destruct (exps_fields d) as (_ & _ & ? & ? & ? & ? & ?).
  destruct (cs_fields d) as (_ & _ & ? & ? & ? & ? & ?).
  destruct (varlocs_fields d) as (_ & _ & ? & ? & ? & ? & ?).
  destruct (values_fields d) as (_ & _ & ? & ? & ? & ? & ?).
  destruct (hash_fields d) as (? & ? & ? & ? & ?).
  repeat split; assumption.
Qed.

(** X7. On objects whose maps are well-formed dicts, [__eq__] is an
    equivalence: reflexive, symmetric and transitive; and it reads the map
    and the units only, so memoised state never changes its answer. *)
Theorem X7_eq_is_an_equivalence (a b c : data.NomialData) :
  data.map_wf (data.hmap a) = true ->
  data.map_wf (data.hmap b) = true ->
  data.map_wf (data.hmap c) = true ->
  data.__eq__ a a = true
  /\ data.__eq__ a b = data.__eq__ b a
  /\ (data.__eq__ a b = true -> data.__eq__ b c = true -> data.__eq__ a c = true)
  /\ data.__eq__ (data._reset a) b = data.__eq__ a b
  /\ data.__eq__ a (data._reset b) = data.__eq__ a b.
Proof.
  intros Wa Wb Wc.
  assert (Hiff : forall x y : data.NomialData,
            data.map_wf (data.hmap x) = true -> data.map_wf (data.hmap y) = true ->
            (data.__eq__ x y = true <->
             Py.same_content data.HashVector_eq (data.terms (data.hmap x))
               (data.terms (data.hmap y))
             /\ data.units x = data.units y)).
  { intros x y Wx Wy. rewrite NomialData_eq_spec.
    by rewrite (NomialMap_eq_same_terms _ _ Wx Wy). }
  pose proof (proj1 (terms_wf_spec _) Wa) as [Pa _].
  pose proof (proj1 (terms_wf_spec _) Wb) as [Pb _].
  pose proof (proj1 (terms_wf_spec _) Wc) as [Pc _].
  split; [|split; [|split; [|split]]]; try reflexivity.
  - apply Hiff; auto. split; [|done].
    apply (same_content_refl data.HashVector_eq
             (fun e => Py.dict_wf data.VarKey_eq e = true) HashVector_eq_refl).
    exact Pa.
  - apply eq_true_iff_eq. rewrite !Hiff by done. split.
    + intros [H ->]. split; [by apply same_content_sym|done].
    + intros [H ->]. split; [by apply same_content_sym|done].
  - rewrite !Hiff by done. intros [H1 ->] [H2 ->]. split; [|done].
    by apply (same_content_trans data.HashVector_eq
                (fun e => Py.dict_wf data.VarKey_eq e = true)
                HashVector_eq_trans _ (data.terms (data.hmap b)) _).
Qed.

(** X8. [values] of a reachable object pairs each key of [vks] whose
    attribute bag has an entry [value] with that entry, and holds no other
    pair; a key whose bag lacks [value] is left out. *)
Theorem X8_values_are_the_valued_keys (d : data.NomialData)
  (k : VarKey) (v : Value) :
  data.reachable d ->
  In (k, v) (snd (data.values d)) <->
  In k (data.vks d) /\ descr k !! "value" = Some v.
Proof.
  intros Hr. destruct (reachable_memos d Hr) as (_ & _ & _ & _ & _ & V).
  destruct (values_fields d) as (Hv & _).
  assert (snd (data.values d) = values_of (data.vks d)) as ->.
  { rewrite Hv. destruct (data._values d); simpl; auto. }
  rewrite <- !list_elem_of_In, list_elem_of_omap. split.
  - intros (k' & Hin & Hk). destruct (descr k' !! "value") eqn:E; [|done].
    injection Hk as -> ->. done.
  - intros [Hin Hk]. exists k. by rewrite Hk.
Qed.

End DataViews.

(** * Further properties of keys *)

Section VarKeyMoreFacts.
Context {Dom : Domain} {Rt : Runtime} {UC : UnitCalls}.

#[local] Ltac break_match_in H :=
  match type of H with
  | context [match ?x with _ => _ end] => destruct x eqn:?
  end.

#[local] Ltac run_M :=
  unfold mbind, varkey.M_bind, mret, varkey.M_ret, varkey.lift in *.

(** *** The counter *)

(** X9. A construction that is given a name (any value but a key, with a
    non-empty rendering) neither reads nor advances the creation counter,
    whether it returns a key or raises: only anonymous constructions count. *)
Theorem X9_named_construction_leaves_the_counter (name : Value)
  (kwargs : gmap string Value) (c c' : varkey.Count) :
  varkey.py_truthy name = true ->
  (forall o : VarKey, name <> VKey o) ->
  varkey.py_str name <> EmptyString ->
  fst (varkey.__init__ name kwargs c) = c
  /\ snd (varkey.__init__ name kwargs c) = snd (varkey.__init__ name kwargs c').
Proof.
  intros Ht Hk Hs. unfold varkey.__init__.
  rewrite (init_named_counter_free 2 name kwargs c),
          (init_named_counter_free 2 name kwargs c') by done.
  done.
Qed.

(** *** Rendered names *)

(** X10. For a key whose name is a string, [str_without] returns the name
    followed by the subscripts shown, in the order lineage, idx: [_] and the
    lineage string when the lineage is truthy and not excluded (with model
    numbers unless [modelnums] is excluded), then [_] and the index when the
    index is truthy and not excluded.  So the result always starts with the
    name, it is the bare name when each of lineage and idx is falsy or
    excluded, and the list [excluded] matters only through which of
    [lineage], [idx] and [modelnums] it contains. *)
Theorem X10_str_without_extends_the_name (d : gmap string Value)
  (excluded excluded' : list string) (nm : string) :
  d !! "name" = Some (VStr nm) ->
  varkey.str_without d excluded
  = Ok (nm
        +:+ (if varkey.py_truthy (varkey.__getattr__ d "lineage")
                && negb (bool_decide ("lineage" ∈ excluded))
             then "_" +:+ lineagestr d (negb (bool_decide ("modelnums" ∈ excluded)))
             else EmptyString)
        +:+ (if varkey.py_truthy (varkey.__getattr__ d "idx")
                && negb (bool_decide ("idx" ∈ excluded))
             then "_" +:+ varkey.py_str (varkey.__getattr__ d "idx")
             else EmptyString))
  /\ (exists rest : string, varkey.str_without d excluded = Ok (nm +:+ rest))
  /\ (varkey.py_truthy (varkey.__getattr__ d "lineage") = false
      \/ "lineage" ∈ excluded ->
      varkey.py_truthy (varkey.__getattr__ d "idx") = false
      \/ "idx" ∈ excluded ->
      varkey.str_without d excluded = Ok nm)
  /\ varkey.str_without d ("lineage" :: "idx" :: excluded) = Ok nm
  /\ (("lineage" ∈ excluded <-> "lineage" ∈ excluded') ->
      ("idx" ∈ excluded <-> "idx" ∈ excluded') ->
      ("modelnums" ∈ excluded <-> "modelnums" ∈ excluded') ->
      varkey.str_without d excluded = varkey.str_without d excluded').
Proof.
  intros Hn.
  pose proof append_nil_r as Hnil.
  assert (Hbare : forall ex : list string,
            varkey.py_truthy (varkey.__getattr__ d "lineage") = false
            \/ "lineage" ∈ ex ->
            varkey.py_truthy (varkey.__getattr__ d "idx") = false
            \/ "idx" ∈ ex ->
            varkey.str_without d ex = Ok nm).
  { intros ex HL HI. rewrite (str_without_closed_form d ex nm Hn).
    assert (varkey.py_truthy (varkey.__getattr__ d "lineage")
            && negb (bool_decide ("lineage" ∈ ex)) = false) as ->.
    { destruct HL as [->|HL]; [done|].
      rewrite (bool_decide_eq_true_2 _ HL). apply andb_false_r. }
    assert (varkey.py_truthy (varkey.__getattr__ d "idx")
            && negb (bool_decide ("idx" ∈ ex)) = false) as ->.
    { destruct HI as [->|HI]; [done|].
      rewrite (bool_decide_eq_true_2 _ HI). apply andb_false_r. }
    by rewrite !Hnil. }
  split; [exact (str_without_closed_form d excluded nm Hn)|].
  split; [|split; [|split]].
  - rewrite (str_without_closed_form d excluded nm Hn). eauto.
  - apply Hbare.
  - apply Hbare; right; set_solver.
  - intros HL HI HM.
    rewrite (str_without_closed_form d excluded nm Hn),
            (str_without_closed_form d excluded' nm Hn).
    by rewrite (bool_decide_ext _ _ HL), (bool_decide_ext _ _ HI),
               (bool_decide_ext _ _ HM).
Qed.

Lemma str_without_not_named (d : gmap string Value) (excluded : list string) :
  (forall nm : string, d !! "name" <> Some (VStr nm)) ->
  varkey.str_without d excluded = Raise TypeError.
Proof.
  intros Hn. unfold varkey.str_without, varkey.__getattr__.
  destruct (d !! "name") as [[]|]; try done. by destruct (Hn s).
Qed.

(** X11. Called with a string for [excluded], as [results_table] does with
    ["models"], [str_without] tests substrings: when none of [lineage],
    [idx] and [modelnums] occurs in that string nothing is excluded, and the
    answer is that of [str_without()].  ["models"] is such a string. *)
Theorem X11_str_without_models_excludes_nothing (d : gmap string Value)
  (excluded : string) :
  Py.contains "lineage" excluded = false ->
  Py.contains "idx" excluded = false ->
  Py.contains "modelnums" excluded = false ->
  varkey_more.str_without_in d excluded = varkey.str_without d []
  /\ varkey_more.str_without_in d "models" = varkey.str_without d [].
Proof.
  intros HL HI HM. split.
  - unfold varkey_more.str_without_in, varkey.str_without.
    destruct (varkey.__getattr__ d "name"); try reflexivity.
    unfold varkey.subscripts. cbn [foldl]. rewrite HL, HI, HM. reflexivity.
  - unfold varkey_more.str_without_in, varkey.str_without.
    destruct (varkey.__getattr__ d "name"); reflexivity.
Qed.

(** *** LaTeX rendering *)

Lemma substring_append_head (s t : string) :
  String.substring 0 (String.length s) (s +:+ t) = s.
Proof.
  induction s as [|a s IH]; [by destruct t|].
  change (String a (String.substring 0 (String.length s) (s +:+ t)) = String a s).
  by rewrite IH.
Qed.

Lemma substring_append_tail (s t : string) (n m : nat) :
  String.substring (String.length s + n) m (s +:+ t) = String.substring n m t.
Proof. induction s as [|a s IH]; [done|exact IH]. Qed.

Lemma drop_third_last_comma (s : string) :
  varkey_more.drop_third_last (s +:+ ",)}") = s +:+ ")}".
Proof.
  unfold varkey_more.drop_third_last. rewrite length_append.
  change (String.length ",)}") with 3%nat.
  replace (String.length s + 3 - 3)%nat with (String.length s) by lia.
  replace (String.length s + 3 - 2)%nat with (String.length s + 1)%nat by lia.
  by rewrite substring_append_head, substring_append_tail.
Qed.

Lemma drop_third_last_tuple (a nm b c : string) :
  varkey_more.drop_third_last (a +:+ nm +:+ b +:+ ("(" +:+ c +:+ ",)") +:+ "}")
  = a +:+ nm +:+ b +:+ "(" +:+ c +:+ ")}".
Proof.
  replace (a +:+ nm +:+ b +:+ ("(" +:+ c +:+ ",)") +:+ "}")
    with ((a +:+ nm +:+ b +:+ "(" +:+ c) +:+ ",)}").
  - by rewrite drop_third_last_comma, !append_assoc.
  - by rewrite !append_assoc.
Qed.

#[local] Ltac decide_names :=
  repeat match goal with
         | |- context [bool_decide (@eq string ?a ?b)] =>
             let v := eval vm_compute in (bool_decide (a = b)) in
             change (bool_decide (a = b)) with v
         end.

#[local] Ltac latex_open :=
  unfold varkey_more.latex, varkey.subscripts; cbn [foldl]; decide_names;
  unfold varkey.__getattr__.

Lemma subscript_hidden (d : gmap string Value) (excluded : list string)
  (subscript : string) :
  d !! subscript = None \/ subscript ∈ excluded ->
  match d !! subscript with
  | Some _ => negb (bool_decide (subscript ∈ excluded))
  | None => false
  end = false.
Proof.
  intros [->|H]; [done|].
  rewrite (bool_decide_eq_true_2 _ H). by destruct (d !! subscript).
Qed.

Lemma repr_int_in_range (n : Z) :
  (- Py.maxint - 1 <= n <= Py.maxint)%Z -> Py.repr_int n = Py.str_int n.
Proof.
  intros [Hlo Hhi]. unfold Py.repr_int.
  apply Z.leb_le in Hlo. apply Z.leb_le in Hhi. by rewrite Hlo, Hhi.
Qed.

Lemma map_repr_int_in_range (i : list Z) :
  List.Forall (fun n => (- Py.maxint - 1 <= n <= Py.maxint)%Z) i ->
  map Py.repr_int i = map Py.str_int i.
Proof.
  induction 1 as [|n i Hn _ IH]; [done|].
  simpl. by rewrite IH, repr_int_in_range.
Qed.

(** X12. [latex] of a key with a string name and no lineage to show.  With
    no index to show either, the answer is the name, under a vector arrow
    when the key has a shape and no (truthy) index.  With an index it is
    [{name}_{index}], the index written as a tuple, whose elements are
    rendered by [repr]: in decimal when they lie in the machine range, and
    with a trailing [L] otherwise.  For a one-element index the comma of the
    tuple is dropped, so [(3,)] is shown as [(3)]. *)
Theorem X12_latex_of_names_and_indices (k : VarKey) (nm : string)
  (excluded : list string) :
  descr k !! "name" = Some (VStr nm) ->
  descr k !! "lineage" = None \/ "lineage" ∈ excluded ->
  (descr k !! "idx" = None \/ "idx" ∈ excluded ->
   varkey_more.latex k excluded
   = Ok (VStr (if varkey.py_truthy (varkey.__getattr__ (descr k) "shape")
                  && negb (varkey.py_truthy (varkey.__getattr__ (descr k) "idx"))
               then "\vec{" +:+ nm +:+ "}" else nm)))
  /\ (forall n : Z,
        descr k !! "idx" = Some (VIdx [n]) -> "idx" ∉ excluded ->
        varkey_more.latex k excluded
        = Ok (VStr ("{" +:+ nm +:+ "}_{(" +:+ Py.repr_int n +:+ ")}"))
        /\ ((- Py.maxint - 1 <= n <= Py.maxint)%Z ->
            varkey_more.latex k excluded
            = Ok (VStr ("{" +:+ nm +:+ "}_{(" +:+ Py.str_int n +:+ ")}"))))
  /\ (forall i : list Z,
        descr k !! "idx" = Some (VIdx i) -> "idx" ∉ excluded ->
        length i <> 1%nat -> i <> [] ->
        varkey_more.latex k excluded
        = Ok (VStr ("{" +:+ nm +:+ "}_{(" +:+ Py.join ", " (map Py.repr_int i)
                    +:+ ")}"))
        /\ (List.Forall (fun n => (- Py.maxint - 1 <= n <= Py.maxint)%Z) i ->
            varkey_more.latex k excluded
            = Ok (VStr ("{" +:+ nm +:+ "}_{(" +:+ Py.join ", " (map Py.str_int i)
                        +:+ ")}")))).
Proof.
  intros Hn HL. pose proof (subscript_hidden _ _ _ HL) as HL'.
  split; [|split].
  - intros HI. pose proof (subscript_hidden _ _ _ HI) as HI'.
    latex_open. rewrite Hn.
    destruct (descr k !! "lineage") as [l0|]; [rewrite HL'|];
      (destruct (descr k !! "idx") as [i0|]; [rewrite HI'|]); cbn;
      by destruct (_ && _).
  - intros n HI HX.
    assert (varkey_more.latex k excluded
            = Ok (VStr ("{" +:+ nm +:+ "}_{(" +:+ Py.repr_int n +:+ ")}"))) as E.
    { latex_open. rewrite Hn, HI, (bool_decide_eq_false_2 _ HX).
      destruct (descr k !! "lineage") as [l0|]; [rewrite HL'|]; cbn;
        rewrite andb_false_r; do 2 f_equal;
        exact (drop_third_last_tuple "{" nm "}_{" (Py.repr_int n)). }
    split; [exact E|]. intros Hr. by rewrite E, repr_int_in_range.
  - intros i HI HX Hlen Hne.
    assert (varkey_more.latex k excluded
            = Ok (VStr ("{" +:+ nm +:+ "}_{(" +:+ Py.join ", " (map Py.repr_int i)
                        +:+ ")}"))) as E.
    { latex_open.
      rewrite Hn, HI, (bool_decide_eq_false_2 _ HX).
      assert ((length i =? 1)%nat = false) as Hlen' by by apply Nat.eqb_neq.
      assert (Py.str_int_tuple i
              = "(" +:+ Py.join ", " (map Py.repr_int i) +:+ ")") as Htup.
      { destruct i as [|a [|b i]]; try done. }
      destruct (descr k !! "lineage") as [l0|]; [rewrite HL'|]; cbn;
        rewrite Hlen', (bool_decide_eq_false_2 _ Hne), andb_false_r, Htup;
        by rewrite ?append_assoc. }
    split; [exact E|]. intros Hr. by rewrite E, map_repr_int_in_range.
Qed.

(** X13. [latex] of a key whose lineage is shown (a string name, no index
    to show, no vector arrow).  A non-empty lineage gives
    [{name}_{m1/m2/...}], each model followed by [.number] when its number is
    positive and model numbers are not excluded.  A bag that holds [lineage]
    with the value [None] or an empty lineage makes [latex] raise, although
    [str_without] renders the same key. *)
Theorem X13_latex_of_a_lineage (k : VarKey) (nm : string)
  (excluded : list string) :
  descr k !! "name" = Some (VStr nm) ->
  "lineage" ∉ excluded ->
  descr k !! "idx" = None \/ "idx" ∈ excluded ->
  varkey.py_truthy (varkey.__getattr__ (descr k) "shape") = false ->
  (forall l : list (string * Z),
     descr k !! "lineage" = Some (VLineage l) -> l <> [] ->
     varkey_more.latex k excluded
     = Ok (VStr ("{" +:+ nm +:+ "}_{"
                 +:+ Py.join "/"
                       (map (fun p : string * Z =>
                               if (0 <? snd p)%Z
                                  && negb (bool_decide ("modelnums" ∈ excluded))
                               then fst p +:+ "." +:+ Py.str_int (snd p)
                               else fst p) l)
                 +:+ "}")))
  /\ (descr k !! "lineage" = Some VNone ->
      varkey_more.latex k excluded = Raise TypeError
      /\ Py.raises (varkey.str_without (descr k) excluded) = false)
  /\ (descr k !! "lineage" = Some (VLineage []) ->
      varkey_more.latex k excluded = Raise IndexError
      /\ Py.raises (varkey.str_without (descr k) excluded) = false).
Proof.
  intros Hn HX HI Hshape. pose proof (subscript_hidden _ _ _ HI) as HI'.
  unfold varkey.__getattr__ in Hshape.
  split; [|split].
  - intros l Hl Hne. latex_open.
    rewrite Hn, Hl, Hshape, (bool_decide_eq_false_2 _ HX). cbn [negb default].
    unfold id.
    assert (varkey.py_truthy (VLineage l) = true) as ->.
    { cbn. by rewrite (bool_decide_eq_false_2 _ Hne). }
    assert ((if true && negb (bool_decide ("modelnums" ∈ excluded))
             then varkey_more.latex_lineage (VLineage l)
             else varkey.models k)
            = Ok (map (fun p : string * Z =>
                         if (0 <? snd p)%Z
                            && negb (bool_decide ("modelnums" ∈ excluded))
                         then fst p +:+ "." +:+ Py.str_int (snd p)
                         else fst p) l)) as ->.
    { destruct (bool_decide ("modelnums" ∈ excluded)); cbn.
      - unfold varkey.models, varkey.__getattr__. rewrite Hl. cbn.
        destruct l as [|p l]; [done|]. f_equal. apply map_ext. intros q.
        by rewrite andb_false_r.
      - f_equal. apply map_ext. intros q. by rewrite andb_true_r. }
    destruct (descr k !! "idx") as [i0|]; [rewrite HI'|]; cbn;
      by rewrite ?append_assoc.
  - intros Hl. split.
    + latex_open. rewrite Hn, Hl, (bool_decide_eq_false_2 _ HX). cbn.
      unfold varkey.models, varkey.__getattr__. rewrite Hl. reflexivity.
    + unfold varkey.str_without, varkey.__getattr__. by rewrite Hn.
  - intros Hl. split.
    + latex_open. rewrite Hn, Hl, (bool_decide_eq_false_2 _ HX). cbn.
      unfold varkey.models, varkey.__getattr__. rewrite Hl. reflexivity.
    + unfold varkey.str_without, varkey.__getattr__. by rewrite Hn.
Qed.

(** *** Copies and pickled states *)

Lemma init_copy_counter_free (fuel : nat) (o : VarKey)
  (kwargs : gmap string Value) (c : varkey.Count) (nm : string) :
  descr o !! "name" = Some (VStr nm) -> nm <> EmptyString ->
  varkey.__init__fuel (S fuel) (VKey o) kwargs c
  = (c, snd (varkey.__init__fuel (S fuel) (VKey o) kwargs 0)).
Proof.
  intros Hn Hne. simpl. run_M. simpl.
  destruct (varkey.str_without (descr o) ["modelnums"]) as [cl|e]; simpl; [|done].
  destruct (varkey.make_eqstr (descr o) cl) as [es|e]; simpl; [|done].
  destruct (descr o !! "idx"); simpl; [|done].
  destruct (descr o !! "veckey"); simpl.
  - repeat match goal with
           | |- context [match ?x with _ => _ end] => destruct x
           end; reflexivity.
  - rewrite lookup_delete_ne, Hn by done. simpl default.
    assert (varkey.py_truthy (VStr nm) = true) as Ht.
    { simpl. by rewrite bool_decide_eq_false_2. }
    rewrite (init_named_counter_free fuel (VStr nm) _ c),
            (init_named_counter_free fuel (VStr nm) _ 0) by done.
    destruct (snd (varkey.__init__fuel fuel (VStr nm)
                     (delete "name" (delete "idx" (descr o))) 0)); simpl; [|done].
    repeat match goal with
           | |- context [match ?x with _ => _ end] => destruct x
           end; reflexivity.
Qed.

(** A key that a fresh construction returned is what the constructor makes
    of its bag, from any counter. *)
Lemma init_from_bag (name : Value) (kwargs kwargs' : gmap string Value)
  (c c' c0 : varkey.Count) (o : VarKey) :
  (forall o' : VarKey, name <> VKey o') ->
  (varkey.py_truthy name = true -> varkey.py_str name <> EmptyString) ->
  varkey.__init__ name kwargs c = (c', Ok o) ->
  varkey.__init__ (VKey o) kwargs' c0 = (c0, Ok o).
Proof.
  intros Hk Hs H. unfold varkey.__init__ in *.
  destruct (init_inv 1 name kwargs c c' o H) as (c1 & Hd & _).
  assert (descr o !! "name"
          = Some (VStr (if varkey.py_truthy name then varkey.py_str name
                        else varkey.fbox (c + 1)))) as Hn.
  { rewrite init_descr_fresh in Hd by done. by apply fresh_descr_name in Hd. }
  assert ((if varkey.py_truthy name then varkey.py_str name
           else varkey.fbox (c + 1)) <> EmptyString) as Hne.
  { destruct (varkey.py_truthy name); [by apply Hs|done]. }
  assert (varkey.__init__fuel 2 (VKey o) kwargs' c1 = (c', Ok o)) as H1.
  { rewrite <- H. apply init_ext. by rewrite Hd. }
  pose proof (eq_trans (eq_sym H1)
                (init_copy_counter_free 1 o kwargs' c1 _ Hn Hne)) as E.
  injection E as _ E.
  etransitivity; [exact (init_copy_counter_free 1 o kwargs' c0 _ Hn Hne)|].
  f_equal. symmetry. exact E.
Qed.

(** X14. Passing a key as the name copies it: for a key [o] that a
    construction from a name returned, [VarKey(o, **kwargs)] returns a key
    with the same bag, clean name, [eqstr], hash, aliases and [veckey] as
    [o]; the keyword arguments are ignored and the counter is left alone. *)
Theorem X14_a_key_as_name_copies_it (name : Value)
  (kwargs kwargs' : gmap string Value) (c c' c0 : varkey.Count) (o : VarKey) :
  (forall o' : VarKey, name <> VKey o') ->
  (varkey.py_truthy name = true -> varkey.py_str name <> EmptyString) ->
  varkey.__init__ name kwargs c = (c', Ok o) ->
  varkey.__init__ (VKey o) kwargs' c0 = (c0, Ok o).
Proof. apply init_from_bag. Qed.

#[local] Ltac bag_eq :=
  apply map_eq; intros ?;
  repeat (rewrite lookup_insert || rewrite lookup_delete);
  repeat case_decide; simplify_eq; try done.

(** The bag of a fresh construction is rebuilt from its own entries. *)
Lemma restate_bag (name : Value) (kwargs : gmap string Value)
  (c c1 : varkey.Count) (d : gmap string Value) (nm : string) :
  varkey.fresh_descr name kwargs c = (c1, Ok d) ->
  d !! "name" = Some (VStr nm) -> nm <> EmptyString ->
  forall c0 : varkey.Count,
    varkey.fresh_descr (VStr nm) (delete "name" (delete "units" d)) c0
    = (c0, Ok d).
Proof.
  intros H Hn Hne c0.
  assert (Htn : varkey.py_truthy (VStr nm) = true).
  { simpl. by rewrite bool_decide_eq_false_2. }
  apply fresh_descr_spec in H as (_ & u & q & -> & Hcase).
  assert (Hnm : (if varkey.py_truthy name then varkey.py_str name
                 else varkey.fbox (c + 1)) = nm).
  { rewrite lookup_insert_ne, lookup_insert_ne, lookup_insert in Hn by done.
    rewrite decide_True in Hn by done. congruence. }
  rewrite Hnm.
  destruct Hcase as [(Hd & -> & ->)|(Hd & Hu & q' & Hq & ->)].
  - rewrite fresh_descr_dimensionless.
    + rewrite Htn. simpl varkey.py_str. f_equal. f_equal. bag_eq.
    + unfold varkey.unit_input, varkey.__getattr__, varkey.py_or.
      by simplify_map_eq.
  - assert (Hdu : varkey.dimensionless (VStr u) = false) by (by rewrite <- Hu).
    pose proof (dimensionless_nonempty u Hdu) as Hne'.
    rewrite (fresh_descr_with_units _ _ _ u q'); auto.
    + rewrite Htn. simpl varkey.py_str. f_equal. f_equal. bag_eq.
    + unfold varkey.unit_input, varkey.__getattr__, varkey.py_or.
      simplify_map_eq. simpl. by rewrite bool_decide_eq_false_2.
Qed.

(** X15. Pickling round trip.  For a key [o] that a construction from a
    name returned and whose bag holds no callable outside [units], the state
    [__getstate__] stores is the bag without [units], and [__setstate__] on
    that state rebuilds [o] itself, units included, from any counter and
    without advancing it. *)
Theorem X15_setstate_restores_the_pickled_key (name : Value)
  (kwargs : gmap string Value) (c c' : varkey.Count) (o : VarKey) :
  (forall o' : VarKey, name <> VKey o') ->
  (varkey.py_truthy name = true -> varkey.py_str name <> EmptyString) ->
  varkey.__init__ name kwargs c = (c', Ok o) ->
  map_Forall (fun _ v => varkey_more.has_call v = false)
    (delete "units" (descr o)) ->
  varkey_more.__getstate__ o = delete "units" (descr o)
  /\ varkey_more.__getstate__ o !! "units" = None
  /\ (forall a : string,
        a <> "units" -> varkey_more.__getstate__ o !! a = descr o !! a)
  /\ forall c0 : varkey.Count,
       varkey_more.__setstate__ (varkey_more.__getstate__ o) c0 = (c0, Ok o).
Proof.
  intros Hk Hs H Hcall.
  assert (varkey_more.__getstate__ o = delete "units" (descr o)) as Hst.
  { unfold varkey_more.__getstate__. apply map_eq. intros a.
    rewrite lookup_fmap.
    destruct (delete "units" (descr o) !! a) as [v|] eqn:E; [|done].
    simpl. by rewrite (Hcall a v E). }
  rewrite Hst. split; [done|]. split; [by rewrite lookup_delete|].
  split; [intros a Ha; by rewrite lookup_delete_ne|].
  intros c0. unfold varkey_more.__setstate__.
  pose proof H as H'. unfold varkey.__init__ in H'.
  destruct (init_inv 1 name kwargs c c' o H') as (c1 & Hd & _).
  rewrite init_descr_fresh in Hd by done.
  pose proof (fresh_descr_name _ _ _ _ _ Hd) as Hn.
  assert ((if varkey.py_truthy name then varkey.py_str name
           else varkey.fbox (c + 1)) <> EmptyString) as Hne.
  { destruct (varkey.py_truthy name); [by apply Hs|done]. }
  rewrite lookup_delete_ne, Hn by done. simpl default.
  rewrite <- (init_from_bag name kwargs ∅ c c' c0 o Hk Hs H).
  unfold varkey.__init__. apply init_ext.
  rewrite init_descr_fresh by done.
  by rewrite (restate_bag name kwargs c c1 (descr o) _ Hd Hn Hne c0).
Qed.

(** *** The aliases of a key *)

Lemma py_eq_refl (v : Value) : varkey.py_eq v v = true.
Proof. destruct v; simpl; try done; by apply bool_decide_eq_true_2. Qed.

Lemma py_eq_sym (a b : Value) : varkey.py_eq a b = varkey.py_eq b a.
Proof. destruct a, b; simpl; try done; apply bool_decide_ext; split; congruence. Qed.

Lemma set_add_keeps (v w : Value) (s : list Value) :
  existsb (varkey.py_eq v) s = true ->
  existsb (varkey.py_eq v) (varkey.set_add w s) = true.
Proof.
  intros H. unfold varkey.set_add.
  destruct (existsb (varkey.py_eq w) s); [done|].
  by rewrite existsb_app, H.
Qed.

Lemma set_add_holds (w : Value) (s : list Value) :
  existsb (varkey.py_eq w) (varkey.set_add w s) = true.
Proof.
  unfold varkey.set_add.
  destruct (existsb (varkey.py_eq w) s) eqn:E; [done|].
  rewrite existsb_app. simpl. rewrite py_eq_refl. apply orb_true_iff. right. done.
Qed.

Lemma set_add_In (v w : Value) (s : list Value) :
  In v (varkey.set_add w s) -> In v s \/ v = w.
Proof.
  unfold varkey.set_add. destruct (existsb (varkey.py_eq w) s); [by left|].
  intros H. apply in_app_or in H as [H|[H|[]]]; [by left|by right].
Qed.

Lemma set_add_length (w : Value) (s : list Value) :
  (length (varkey.set_add w s) <= S (length s))%nat.
Proof.
  unfold varkey.set_add. destruct (existsb (varkey.py_eq w) s); [lia|].
  rewrite length_app. simpl. lia.
Qed.

(** No two members of a set are equal. *)
#[local] Abbreviation distinct s :=
  (forall (i j : nat) (a b : Value),
     s !! i = Some a -> s !! j = Some b -> i <> j -> varkey.py_eq a b = false).

Lemma set_add_distinct (w : Value) (s : list Value) :
  distinct s -> distinct (varkey.set_add w s).
Proof.
  intros Hs. unfold varkey.set_add.
  destruct (existsb (varkey.py_eq w) s) eqn:E; [done|].
  assert (forall (i : nat) (a : Value), s !! i = Some a -> varkey.py_eq w a = false)
    as Hw.
  { intros i a Hi. destruct (varkey.py_eq w a) eqn:Ewa; [|done].
    assert (existsb (varkey.py_eq w) s = true) as Hex; [|congruence].
    apply existsb_exists. exists a. split; [|done].
    apply list_elem_of_In. by eapply list_elem_of_lookup_2. }
  intros i j a b Hi Hj Hij.
  apply lookup_app_Some in Hi as [Hi|[Hli Hi]];
    apply lookup_app_Some in Hj as [Hj|[Hlj Hj]].
  - by apply (Hs i j).
  - apply list_lookup_singleton_Some in Hj as [_ <-].
    rewrite py_eq_sym. by apply (Hw i).
  - apply list_lookup_singleton_Some in Hi as [_ <-]. by apply (Hw j).
  - apply list_lookup_singleton_Some in Hi as [Hi _].
    apply list_lookup_singleton_Some in Hj as [Hj _]. lia.
Qed.

(** The set [keys] as the constructor fills it. *)
Lemma init_keys (fuel : nat) (name : Value) (kwargs : gmap string Value)
  (c c' : varkey.Count) (k : VarKey) :
  varkey.__init__fuel fuel name kwargs c = (c', Ok k) ->
  match descr k !! "idx" with
  | None =>
      keys k = varkey.set_add (VStr (cleanstr k))
                 (varkey.set_add (varkey.__getattr__ (descr k) "name") [])
  | Some _ =>
      exists s1 s2 : string,
        varkey.str_without (descr k) ["idx"] = Ok s1
        /\ varkey.str_without (descr k) ["idx"; "modelnums"] = Ok s2
        /\ keys k
           = varkey.set_add (VStr s2)
               (varkey.set_add (VStr s1)
                  (varkey.set_add (varkey.veckey k)
                     (varkey.set_add (VStr (cleanstr k))
                        (varkey.set_add (varkey.__getattr__ (descr k) "name") []))))
  end.
Proof.
  destruct fuel as [|fuel]; simpl; run_M; [discriminate|].
  destruct (varkey.init_descr name kwargs c) as [c1 [d|e]]; [|discriminate].
  destruct (varkey.str_without d ["modelnums"]) as [cl|e]; [|discriminate].
  destruct (varkey.make_eqstr d cl) as [es|e]; [|discriminate].
  intros H.
  destruct (d !! "idx") eqn:Ei.
  - destruct (d !! "veckey") eqn:Ev.
    + repeat (break_match_in H; try discriminate);
        injection H as <- <-; simpl; rewrite Ei; unfold varkey.veckey; simpl;
        eexists _, _; (split; [eassumption|]); (split; [eassumption|]);
        congruence.
    + match type of H with
      | context [varkey.__init__fuel fuel ?n ?kw c1] =>
          destruct (varkey.__init__fuel fuel n kw c1) as [c2 [vk|e]] eqn:En
      end; [|discriminate].
      repeat (break_match_in H; try discriminate);
        injection H as <- <-; simpl; rewrite Ei; unfold varkey.veckey; simpl;
        eexists _, _; (split; [eassumption|]); (split; [eassumption|]);
        congruence.
  - injection H as <- <-. simpl. by rewrite Ei.
Qed.

(** X16. The aliases of a key the constructor returns.  [keys] holds the
    name and the clean name; for a key with an index it also holds the
    [veckey] and the two renderings without the index.  It holds nothing
    else, at most five values, and no two equal ones. *)
Theorem X16_keys_are_the_aliases (name : Value) (kwargs : gmap string Value)
  (c c' : varkey.Count) (k : VarKey) :
  varkey.__init__ name kwargs c = (c', Ok k) ->
  existsb (varkey.py_eq (varkey.__getattr__ (descr k) "name")) (keys k) = true
  /\ existsb (varkey.py_eq (VStr (cleanstr k))) (keys k) = true
  /\ (is_Some (descr k !! "idx") ->
      existsb (varkey.py_eq (varkey.veckey k)) (keys k) = true
      /\ exists s1 s2 : string,
           varkey.str_without (descr k) ["idx"] = Ok s1
           /\ varkey.str_without (descr k) ["idx"; "modelnums"] = Ok s2
           /\ existsb (varkey.py_eq (VStr s1)) (keys k) = true
           /\ existsb (varkey.py_eq (VStr s2)) (keys k) = true)
  /\ (forall v : Value,
        In v (keys k) ->
        v = varkey.__getattr__ (descr k) "name" \/ v = VStr (cleanstr k)
        \/ (is_Some (descr k !! "idx")
            /\ (v = varkey.veckey k
                \/ varkey.str_without (descr k) ["idx"] = Ok (varkey.py_str v)
                \/ varkey.str_without (descr k) ["idx"; "modelnums"]
                   = Ok (varkey.py_str v))))
  /\ (forall (i j : nat) (a b : Value),
        keys k !! i = Some a -> keys k !! j = Some b -> i <> j ->
        varkey.py_eq a b = false)
  /\ (length (keys k) <= 5)%nat.
Proof.
  intros H. apply init_keys in H.
  set (nm := varkey.__getattr__ (descr k) "name") in *.
  set (keys0 := varkey.set_add (VStr (cleanstr k)) (varkey.set_add nm [])) in *.
  assert (existsb (varkey.py_eq nm) keys0 = true) as Hnm.
  { apply set_add_keeps, set_add_holds. }
  assert (existsb (varkey.py_eq (VStr (cleanstr k))) keys0 = true) as Hcl.
  { apply set_add_holds. }
  assert (forall v, In v keys0 -> v = nm \/ v = VStr (cleanstr k)) as Hin0.
  { intros v Hv. apply set_add_In in Hv as [Hv|Hv]; [|by right].
    apply set_add_In in Hv as [[]|Hv]. by left. }
  assert (distinct keys0) as Hd0.
  { apply set_add_distinct, set_add_distinct. intros i j a b Hi.
    by rewrite lookup_nil in Hi. }
  assert (length keys0 <= 2)%nat as Hl0.
  { unfold keys0. etransitivity; [apply set_add_length|].
    apply le_n_S. etransitivity; [apply set_add_length|]. simpl. lia. }
  destruct (descr k !! "idx") as [i0|] eqn:Ei.
  - destruct H as (s1 & s2 & E1 & E2 & ->).
    split; [by do 3 apply set_add_keeps|].
    split; [by do 3 apply set_add_keeps|].
    split; [|split; [|split]].
    + intros _. split; [by do 2 apply set_add_keeps; apply set_add_holds|].
      exists s1, s2. split; [done|]. split; [done|].
      split; [apply set_add_keeps, set_add_holds|apply set_add_holds].
    + intros v Hv.
      apply set_add_In in Hv as [Hv| ->]; [|right; right; split; eauto].
      apply set_add_In in Hv as [Hv| ->]; [|right; right; split; eauto].
      apply set_add_In in Hv as [Hv| ->]; [|right; right; split; eauto].
      destruct (Hin0 v Hv) as [->| ->]; auto.
    + by do 3 apply set_add_distinct.
    + do 3 (etransitivity; [apply set_add_length|]; apply le_n_S). lia.
  - rewrite H. split; [done|]. split; [done|].
    split; [intros [? ?]; discriminate|].
    split; [|split; [done|lia]].
    intros v Hv. destruct (Hin0 v Hv) as [->| ->]; auto.
Qed.

End VarKeyMoreFacts.

(** * Further examples *)

Section MoreExamples.
#[local] Existing Instance Demo.demo_domain.
#[local] Existing Instance Demo.demo_runtime.
#[local] Existing Instance Demo.demo_algebra.
#[local] Existing Instance DemoMore.demo_unit_calls.

(** [3*x - y**2]: exponents and coefficients pair up to the two terms. *)
Lemma X1_witness :
  combine (snd (data.exps Demo.data_xy)) (fst (snd (data.cs Demo.data_xy)))
  = [Demo.term_3x; Demo.term_y2].
Proof.
  destruct (X1_exps_cs_pair_up Demo.data_xy (data.reach_init Demo.map_xy))
    as (H & _).
  exact H.
Defined.

(** In [3*x - y**2] the key [y] occurs in the second term only. *)
Lemma X2_witness :
  Py.dict_get data.VarKey_eq Demo.key_y (snd (data.varlocs Demo.data_xy))
  = Some [1%nat].
Proof.
  destruct (X2_varlocs_lists_the_terms_of_a_key Demo.data_xy Demo.key_y
              (data.reach_init Demo.map_xy)) as (H & _).
  - intros t [<-|[<-|[]]]; reflexivity.
  - exact H.
Defined.

(** The keys of [2*z*x] are pairwise different. *)
Lemma X3_witness : List.NoDup (map eqstr (data.vks DemoMore.data_zx)).
Proof.
  destruct (X3_vks_are_the_keys_of_the_map DemoMore.data_zx
              (data.reach_init DemoMore.map_zx)) as (H & _).
  exact H.
Defined.

(** [3*x - y**2] after its exponents were read, then reset. *)
Lemma X5_witness :
  data._reset (fst (data.exps Demo.data_xy)) = data.__init__ Demo.map_xy.
Proof.
  destruct (X5_reset_gives_the_object_as_built (fst (data.exps Demo.data_xy))
              (data.reach_exps _ (data.reach_init Demo.map_xy))) as (H & _).
  exact H.
Defined.

(** [3*x - y**2] and [-y**2 + 3*x] compare the same from either side. *)
Lemma X7_witness :
  data.__eq__ Demo.data_xy Demo.data_yx = data.__eq__ Demo.data_yx Demo.data_xy.
Proof.
  destruct (X7_eq_is_an_equivalence Demo.data_xy Demo.data_yx Demo.data_3x)
    as (_ & H & _); [reflexivity|reflexivity|reflexivity|].
  exact H.
Defined.

(** In [2*z*x] only [z] carries a value. *)
Lemma X8_witness :
  In (DemoMore.key_z, @VNum Demo.demo_domain 5)
     (snd (data.values DemoMore.data_zx)).
Proof.
  apply (proj2 (X8_values_are_the_valued_keys DemoMore.data_zx DemoMore.key_z
                  (@VNum Demo.demo_domain 5) (data.reach_init DemoMore.map_zx))).
  split; [left; reflexivity|reflexivity].
Defined.

(** [VarKey("x")] built when the counter stands at 7. *)
Lemma X9_witness : fst (varkey.__init__ (VStr "x") ∅ 7) = 7.
Proof.
  destruct (X9_named_construction_leaves_the_counter (VStr "x") ∅ 7 0)
    as (H & _).
  - reflexivity.
  - intros o Ho. discriminate Ho.
  - intros Ho. discriminate Ho.
  - exact H.
Defined.

(** The component [v_(0,)] of model [A]: rendered in full, without its
    lineage, and without any subscript. *)
Lemma X10_witness :
  varkey.str_without (descr DemoMore.key_vA0) [] = Ok "v_A_(0,)"
  /\ varkey.str_without (descr DemoMore.key_vA0) ["lineage"] = Ok "v_(0,)"
  /\ varkey.str_without (descr DemoMore.key_vA0) ["lineage"; "idx"] = Ok "v".
Proof.
  split; [|split].
  - destruct (X10_str_without_extends_the_name (descr DemoMore.key_vA0) [] [] "v")
      as (H & _); [reflexivity|].
    exact H.
  - destruct (X10_str_without_extends_the_name (descr DemoMore.key_vA0)
                ["lineage"] [] "v") as (H & _); [reflexivity|].
    exact H.
  - destruct (X10_str_without_extends_the_name (descr DemoMore.key_vA0) [] [] "v")
      as (_ & _ & _ & H & _); [reflexivity|].
    exact H.
Defined.

(** The component [v_(0,)] is shown with the index [(0)]. *)
Lemma X12_witness :
  varkey_more.latex Demo.key_v0 [] = Ok (VStr "{v}_{(0)}").
Proof.
  destruct (X12_latex_of_names_and_indices Demo.key_v0 "v" [])
    as (_ & H & _); [reflexivity|left; reflexivity|].
  apply (H 0); [reflexivity| |unfold Py.maxint; lia].
  intros Hin. apply elem_of_nil in Hin. exact Hin.
Defined.

(** [x] of model [A] number 1. *)
Lemma X13_witness :
  varkey_more.latex Demo.key_x_A1 [] = Ok (VStr "{x}_{A.1}").
Proof.
  destruct (X13_latex_of_a_lineage Demo.key_x_A1 "x" []) as (H & _).
  - reflexivity.
  - intros Hin. apply elem_of_nil in Hin. exact Hin.
  - left. reflexivity.
  - reflexivity.
  - apply (H [("A", 1)]); [reflexivity|]. intros Hl. discriminate Hl.
Defined.

(** A string without any of the three names excludes nothing. *)
Lemma X11_witness :
  varkey_more.str_without_in (descr Demo.key_x_A0) "units"
  = varkey.str_without (descr Demo.key_x_A0) [].
Proof.
  destruct (X11_str_without_models_excludes_nothing (descr Demo.key_x_A0) "units")
    as (H & _); [reflexivity|reflexivity|reflexivity|].
  exact H.
Defined.

(** A copy of [x] of model [A], with keyword arguments that are ignored. *)
Lemma X14_witness :
  varkey.__init__ (VKey Demo.key_x_A0) Demo.kw_idx 5 = (5, Ok Demo.key_x_A0).
Proof.
  apply (X14_a_key_as_name_copies_it (VStr "x") Demo.kw_A0 Demo.kw_idx 0 0 5
           Demo.key_x_A0).
  - intros o' H. discriminate H.
  - intros _ H. discriminate H.
  - reflexivity.
Defined.

(** The component [v_(0,)] pickled and restored. *)
Lemma X15_witness :
  varkey_more.__setstate__ (varkey_more.__getstate__ Demo.key_v0) 3
  = (3, Ok Demo.key_v0).
Proof.
  destruct (X15_setstate_restores_the_pickled_key (VStr "v") Demo.kw_idx 0 0
              Demo.key_v0) as (_ & _ & _ & H).
  - intros o' H. discriminate H.
  - intros _ H. discriminate H.
  - reflexivity.
  - apply (bool_decide_eq_true_1 _). vm_compute. reflexivity.
  - apply H.
Defined.

(** The aliases of the component [v_(0,)] hold its [veckey]. *)
Lemma X16_witness :
  existsb (varkey.py_eq (varkey.veckey Demo.key_v0)) (keys Demo.key_v0) = true.
Proof.
  destruct (X16_keys_are_the_aliases (VStr "v") Demo.kw_idx 0 0 Demo.key_v0)
    as (_ & _ & H & _); [reflexivity|].
  apply H. exists (VIdx [0]). reflexivity.
Defined.

End MoreExamples.
